(** * Verticals from dse-static editions: a model of [create_verticals.py]

    The development embeds the pipeline of
    [dse-static-pipeline/create_verticals.py]: the paragraph walk
    ([get_paragraph]), the two annotation back ends ([run_udp],
    [run_spacy]), the per-document step ([process_tei]) and the corpus loop
    with its bounded retries ([create_vertical]); then the list of
    documents ([get_tei_locations]), the key and the paths that [main]
    gives a corpus, its configuration file ([create_config]), and the
    script [update_corpora_yaml.py].

    Conventions.
    - A Python [str] is a [string]; its characters stand for the code
      points 0-255.  [is_space] is [str.isspace] on that range, which is
      also what the regular expression class [\s] matches.
    - The network, the clock, lxml and spaCy are collaborators of the
      program: they are gathered in an [environment] record, and every
      call to them is recorded in the [world].
    - An exception keeps the effects performed before it was raised (bytes
      written to the vertical file stay written), so the monad [M] returns
      the world in both cases.
    - A reading of the clock and a duration are Python floats, that is
      IEEE 754 binary64 numbers; they are the primitive [float] of Rocq,
      whose addition and subtraction round as Python's do.
    - The progress lines printed with rounded floats are not modelled; the
      message printed by the [except] clause is. *)

From Stdlib Require Import String Ascii List Bool Arith ZArith Lia.
From Stdlib Require Import PrimFloat Permutation Sorted.
Import ListNotations.
Open Scope string_scope.
Open Scope nat_scope.

(* ================================================================== *)
(** ** Python string operations *)
(* ================================================================== *)

Module Py.

Definition LF : ascii := "010"%char.
Definition TAB : ascii := "009"%char.
Definition CR : ascii := "013"%char.

Definition nl : string := String LF "".
Definition tab : string := String TAB "".
Definition cr : string := String CR "".
(** the double quote character, as a one-character string *)
Definition dq : string := String "034"%char "".

(** [str.isspace] of one character, on the code points 0-255. *)
Definition is_space (c : ascii) : bool :=
  let n := nat_of_ascii c in
  ((9 <=? n) && (n <=? 13)) || ((28 <=? n) && (n <=? 32))
  || (n =? 133) || (n =? 160).

(** [s.startswith(p)] *)
Definition startswith (p s : string) : bool := prefix p s.

(** [p in s] *)
Fixpoint contains (p s : string) : bool :=
  prefix p s ||
  match s with
  | "" => false
  | String _ s' => contains p s'
  end.

(** [s[n:]] *)
Fixpoint drop (n : nat) (s : string) : string :=
  match n, s with
  | S k, String _ s' => drop k s'
  | _, _ => s
  end.

(** [s.replace(old, new)] for a non-empty [old]: the occurrences are taken
    from left to right and do not overlap.  [skip] counts the characters
    of the current occurrence that are still to be passed over. *)
Fixpoint replace_from (skip : nat) (old new s : string) : string :=
  match s with
  | "" => ""
  | String c s' =>
      match skip with
      | S k => replace_from k old new s'
      | 0 =>
          if prefix old s
          then new ++ replace_from (String.length old - 1) old new s'
          else String c (replace_from 0 old new s')
      end
  end.

Definition replace (old new s : string) : string := replace_from 0 old new s.

(** [s.split(sep)] for a one-character separator. *)
Fixpoint split (sep : ascii) (s : string) : list string :=
  match s with
  | "" => [""]
  | String c s' =>
      if Ascii.eqb c sep then "" :: split sep s'
      else match split sep s' with
           | [] => [String c ""]
           | p :: ps => String c p :: ps
           end
  end.

(** [s.lstrip()], which is also [re.sub("^\\s*", "", s)] *)
Fixpoint lstrip (s : string) : string :=
  match s with
  | "" => ""
  | String c s' => if is_space c then lstrip s' else s
  end.

Fixpoint rstrip (s : string) : string :=
  match s with
  | "" => ""
  | String c s' =>
      match rstrip s' with
      | "" => if is_space c then "" else String c ""
      | r => String c r
      end
  end.

(** [s.strip()] *)
Definition strip (s : string) : string := rstrip (lstrip s).

(** [re.match("\\s", s)] as a truth value *)
Definition match_space (s : string) : bool :=
  match s with
  | "" => false
  | String c _ => is_space c
  end.

(** [s.count(c)] for a one-character [c] *)
Fixpoint count (c : ascii) (s : string) : nat :=
  match s with
  | "" => 0
  | String d s' => (if Ascii.eqb d c then 1 else 0) + count c s'
  end.

(** [d[k]] on a dict kept as an association list *)
Fixpoint lookup {V : Type} (k : string) (d : list (string * V)) : option V :=
  match d with
  | [] => None
  | (k', v) :: d' => if String.eqb k k' then Some v else lookup k d'
  end.

(** the lines of a text, each closed by a line feed *)
Definition unlines (ls : list string) : string :=
  List.fold_right (fun l acc => l ++ nl ++ acc) "" ls.

End Py.

Import Py.

(* ================================================================== *)
(** ** Constants of the vertical format *)
(* ================================================================== *)

Definition PAR_SEP : string := "PaRaSeP".

Definition P_OPEN : string := "<p>".
Definition P_CLOSE : string := "</p>".
Definition S_OPEN : string := "<s>".
Definition S_CLOSE : string := "</s>".
Definition GLUE : string := "<g/>".

(** ["<p>\n<s>\n"] *)
Definition open_par : string := P_OPEN ++ nl ++ S_OPEN ++ nl.
(** ["</s>\n</p>\n"] *)
Definition close_par : string := S_CLOSE ++ nl ++ P_CLOSE ++ nl.
(** ["</s>\n</p>\n<p>\n<s>\n"] *)
Definition par_break : string := close_par ++ open_par.
(** ["</s>\n<s>\n"] *)
Definition sent_break : string := S_CLOSE ++ nl ++ S_OPEN ++ nl.
(** ["<g/>\n"] *)
Definition glue : string := GLUE ++ nl.

(** [f"{text}\t{lemma}\t{upos}{suffix}\n"] *)
Definition token_line (text lemma upos suffix : string) : string :=
  text ++ tab ++ lemma ++ tab ++ upos ++ suffix ++ nl.

(* ================================================================== *)
(** ** [run_udp]: formatting the CoNLL-U payload *)
(* ================================================================== *)

(** What one line of the payload adds to [vertical] (the body of the
    [for line in result.split("\n")] loop). *)
Definition udp_emit (suffix line : string) : string :=
  if startswith "#" line || String.eqb (strip line) "" then ""
  else
    let parts := split TAB line in
    if List.length parts <? 10 then ""
    else
      let text := nth 1 parts "" in
      let lemma := nth 2 parts "" in
      let upos := nth 3 parts "" in
      if String.eqb text PAR_SEP then par_break
      else
        token_line text lemma upos suffix
        ++ (if contains "SpaceAfter=No" (nth 9 parts "") then glue else "").

Definition udp_step (suffix : string) (vertical line : string) : string :=
  vertical ++ udp_emit suffix line.

(** Lines 48-67 of the source: the vertical built from the [result] field
    of the service's answer. *)
Definition udp_vertical (result suffix : string) : string :=
  fold_left (udp_step suffix) (split LF result) open_par ++ close_par.

(* ================================================================== *)
(** ** [run_spacy]: formatting a spaCy document *)
(* ================================================================== *)

(** A spaCy token, with the attributes the program reads.  [sent] names the
    sentence span the token belongs to; sentence spans are never empty, so
    they are truthy in [sent or token.sent]. *)
Record Token := {
  tok_text : string;
  lemma_ : string;
  pos_ : string;
  tok_is_space : bool;
  is_punct : bool;
  sent : nat
}.

Record Doc := {
  has_sent_start : bool;      (* doc.has_annotation("SENT_START") *)
  doc_tokens : list Token
}.

(** The loop state of [run_spacy]: the three variables the loop assigns. *)
Record spacy_state := {
  sp_vertical : string;
  sp_sent : option nat;
  sp_text : string
}.

(** the line written for a real token (line 99) *)
Definition spacy_line (suffix : string) (token : Token) : string :=
  token_line (tok_text token)
             (if negb (is_punct token) then lemma_ token else tok_text token)
             (pos_ token) suffix.

(** One iteration of [for token in doc] (lines 80-99). *)
Definition spacy_step (suffix : string) (st : spacy_state) (token : Token)
  : spacy_state :=
  if tok_is_space token then st
  else
    let sent0 := match sp_sent st with Some s => s | None => sent token end in
    let v1 := sp_vertical st
              ++ (if negb (sent0 =? sent token) then sent_break else "") in
    let v2 := v1 ++ (if negb (match_space (sp_text st)) && is_punct token
                     then glue else "") in
    let text := drop (String.length (tok_text token)) (lstrip (sp_text st)) in
    let v3 := v2 ++ (if String.eqb (tok_text token) PAR_SEP then par_break
                     else spacy_line suffix token) in
    {| sp_vertical := v3; sp_sent := Some (sent token); sp_text := text |}.

(** Lines 77-102 of the source. *)
Definition spacy_vertical (doc : Doc) (text suffix : string) : string :=
  sp_vertical
    (fold_left (spacy_step suffix) (doc_tokens doc)
       {| sp_vertical := open_par; sp_sent := None; sp_text := text |})
  ++ close_par.

(* ================================================================== *)
(** ** Paragraphs of the TEI tree and the text handed to the back end *)
(* ================================================================== *)

(** An element of the lxml tree, by identity and tag. *)
Record node := { node_id : nat; node_tag : string }.

(** A text result of [tree.xpath]: its characters and the chain
    [getparent()], [getparent().getparent()], ... up to the root. *)
Record smart_string := { value : string; ancestors : list node }.

Definition TEI_P : string := "{http://www.tei-c.org/ns/1.0}p".
Definition TEI_BODY : string := "{http://www.tei-c.org/ns/1.0}body".

(** [get_paragraph(element.getparent())]: [None] when the walk leaves the
    tree without meeting a paragraph or the body. *)
Fixpoint get_paragraph (chain : list node) : option node :=
  match chain with
  | [] => None
  | n :: up =>
      if negb (String.eqb (node_tag n) TEI_P)
         && negb (String.eqb (node_tag n) TEI_BODY)
      then get_paragraph up
      else Some n
  end.

(** [a == b] on what [get_paragraph] returns *)
Definition same_node (a b : option node) : bool :=
  match a, b with
  | None, None => true
  | Some x, Some y => node_id x =? node_id y
  | _, _ => false
  end.

(** [element.replace("\n", " ").replace("\r", " ").strip()] *)
Definition normalize (element : string) : string :=
  strip (replace cr " " (replace nl " " element)).

(** [f" {PAR_SEP} "] *)
Definition separator : string := " " ++ PAR_SEP ++ " ".

(** One iteration of the loop of lines 127-138, on [(last_p, text)]. *)
Definition segment_step (st : option node * string) (element : smart_string)
  : option node * string :=
  let '(last_p, text) := st in
  let part := normalize (value element) in
  if String.eqb part "" then st
  else
    let p := get_paragraph (ancestors element) in
    let last_p := match last_p with None => p | Some _ => last_p end in
    if negb (same_node p last_p)
    then (p, (text ++ separator) ++ part ++ " ")
    else (last_p, text ++ part ++ " ").

Definition segment (elements : list smart_string) : string :=
  snd (fold_left segment_step elements (None, "")).

(** The extracted spans: the elements that are not empty once normalized,
    each with its enclosing block. *)
Definition spans (elements : list smart_string)
  : list (string * option node) :=
  map (fun e => (normalize (value e), get_paragraph (ancestors e)))
      (filter (fun e => negb (String.eqb (normalize (value e)) "")) elements).

(** The number of positions at which the block differs from the block of
    the span just before. *)
Fixpoint block_changes (prev : option node) (blocks : list (option node))
  : nat :=
  match blocks with
  | [] => 0
  | b :: rest =>
      (if same_node b prev then 0 else 1) + block_changes b rest
  end.

Definition enclosing_block_changes (blocks : list (option node)) : nat :=
  match blocks with
  | [] => 0
  | b :: rest => block_changes b rest
  end.

(* ================================================================== *)
(** ** The world of a run and the monad of the program *)
(* ================================================================== *)

(** The exceptions the modelled calls raise; all are caught by
    [except Exception]. *)
Inductive exn :=
| KeyError (key : string)
| RequestException
| XMLSyntaxError
| XPathEvalError
| AssertionError
| OSError.

(** What the program does to the outside, in order. *)
Inductive event :=
| Get (url : string)                    (* requests.get *)
| Post (url model data : string)        (* requests.post *)
| Load (model : string)                 (* spacy.load *)
| Sleep (seconds : nat)                 (* time.sleep *)
| Print (e : exn).                      (* print(f"{e}") *)

(** The [time] dict of [create_vertical]. *)
Record stats := {
  download : float;
  nlp : float;
  total : float;
  tokens : nat
}.

Record world := {
  file : string;            (* what has been written to the vertical *)
  time : stats;
  trace : list event;       (* most recent event last *)
  requests : nat;           (* HTTP exchanges made so far *)
  ticks : nat               (* readings of the clock so far *)
}.

(** A parsed tree is known by what [tree.xpath(expr)] returns; [None]
    stands for a raised exception. *)
Definition etree : Type := string -> option (list smart_string).

(** A loaded pipeline, called on a text. *)
Definition Language : Type := string -> option Doc.

(** The collaborators.  The answer of the network may change from one
    exchange to the next, so it depends on the number of exchanges made
    before; the clock likewise. *)
Record environment := {
  http_get : nat -> string -> option string;
    (* requests.get(url).text *)
  http_post : nat -> string -> string -> string -> option string;
    (* requests.post(url, files=data).json()["result"] for model and data *)
  clock : nat -> float;
  fromstring : string -> option etree;
  spacy_load : string -> option Language
}.

Inductive result (A : Type) :=
| Return (a : A)
| Raise (e : exn).
Arguments Return {A} a.
Arguments Raise {A} e.

Definition M (A : Type) : Type := world -> result A * world.

Definition ret {A} (a : A) : M A := fun w => (Return a, w).

Definition raise {A} (e : exn) : M A := fun w => (Raise e, w).

Definition bind {A B} (c : M A) (k : A -> M B) : M B :=
  fun w =>
    match c w with
    | (Return a, w') => k a w'
    | (Raise e, w') => (Raise e, w')
    end.

Declare Scope py_scope.
Delimit Scope py_scope with py.
Notation "x <- c ;; k" := (bind c (fun x => k))
  (at level 61, c at next level, right associativity) : py_scope.
Notation "c ;; k" := (bind c (fun _ => k))
  (at level 61, right associativity) : py_scope.
Open Scope py_scope.

(** [try: body except Exception as e: handler(e)] *)
Definition try_except {A} (body : M A) (handler : exn -> M A) : M A :=
  fun w =>
    match body w with
    | (Return a, w') => (Return a, w')
    | (Raise e, w') => handler e w'
    end.

Definition log (ev : event) : M unit :=
  fun w => (Return tt,
            {| file := file w; time := time w;
               trace := (trace w ++ [ev])%list;
               requests := requests w; ticks := ticks w |}).

(** [vertical.write(s)] *)
Definition write (s : string) : M unit :=
  fun w => (Return tt,
            {| file := file w ++ s; time := time w; trace := trace w;
               requests := requests w; ticks := ticks w |}).

Definition set_time (t : stats) : M unit :=
  fun w => (Return tt,
            {| file := file w; time := t; trace := trace w;
               requests := requests w; ticks := ticks w |}).

Definition get_time : M stats := fun w => (Return (time w), w).

(** a value that may be missing: [d[key]] *)
Definition item {A} (key : string) (v : option A) : M A :=
  match v with
  | Some a => ret a
  | None => raise (KeyError key)
  end.

Definition or_raise {A} (e : exn) (v : option A) : M A :=
  match v with
  | Some a => ret a
  | None => raise e
  end.

Section Program.

Variable env : environment.

(** [perf_counter()] *)
Definition perf_counter : M float :=
  fun w => (Return (clock env (ticks w)),
            {| file := file w; time := time w; trace := trace w;
               requests := requests w; ticks := S (ticks w) |}).

Definition next_exchange : M nat :=
  fun w => (Return (requests w),
            {| file := file w; time := time w; trace := trace w;
               requests := S (requests w); ticks := ticks w |}).

(** [requests.get(url)], then [response.text] *)
Definition requests_get (url : string) : M string :=
  log (Get url) ;;
  n <- next_exchange ;;
  or_raise RequestException (http_get env n url).

(** [requests.post(url, files=data)], then [response.json()["result"]] *)
Definition requests_post (url model data : string) : M string :=
  log (Post url model data) ;;
  n <- next_exchange ;;
  or_raise RequestException (http_post env n url model data).

(** [sleep(seconds)] *)
Definition sleep (seconds : nat) : M unit := log (Sleep seconds).

(** [print(f"{e}")] *)
Definition print (e : exn) : M unit := log (Print e).

(* ------------------------------------------------------------------ *)
(** *** The two back ends *)

(** The [cfg["udppipe"]] and [cfg["spacy"]] dicts. *)
Record backend_cfg := {
  models : option (list (string * string));
  apiUrl : option string
}.

Definition model_of (lang : string) (cfg : backend_cfg) : M string :=
  ms <- item "models" (models cfg) ;;
  item lang (lookup lang ms).

Definition run_udp (text lang : string) (cfg : backend_cfg)
  (suffix : string) : M string :=
  model <- model_of lang cfg ;;
  url <- item "apiUrl" (apiUrl cfg) ;;
  result <- requests_post url model text ;;
  ret (udp_vertical result suffix).

Definition run_spacy (text lang : string) (cfg : backend_cfg)
  (suffix : string) : M string :=
  model <- model_of lang cfg ;;
  log (Load model) ;;
  nlp <- or_raise OSError (spacy_load env model) ;;
  doc <- or_raise OSError (nlp text) ;;
  (if has_sent_start doc then ret tt else raise AssertionError) ;;
  ret (spacy_vertical doc text suffix).

(* ------------------------------------------------------------------ *)
(** *** [process_tei] *)

(** The [cfg] dict, as far as [process_tei] reads it. *)
Record config := {
  backend : option string;
  udppipe : option backend_cfg;
  spacy : option backend_cfg
}.

(** The [corpora] dict. *)
Record corpus := {
  corpus_id : string;
  corpus_xpath : string;
  corpus_lang : string;
  corpus_tei : list (string * string);    (* location, title; in order *)
  corpus_landingPage : string
}.

(** Lines 113-117. *)
Definition clean_tei (tei_url tei_content : string) : string :=
  let tei_content := replace "<lb/>" " " tei_content in
  if contains "schnitzler-briefe" tei_url
  then
    replace ("<c rendition=" ++ dq ++ "gemination-n" ++ dq ++ ">nn</c>") "nn"
      (replace ("<c rendition=" ++ dq ++ "gemination-m" ++ dq ++ ">mm</c>") "mm"
         (replace ("<c rendition=" ++ dq ++ "#langesS" ++ dq ++ ">s</c>") "s"
            tei_content))
  else tei_content.

(** [f'<chapter ID="{corpora["id"]}" LandingPageURI="{html_url}">\n'] *)
Definition chapter_open (corpora : corpus) (html_url : string) : string :=
  "<chapter ID=" ++ dq ++ corpus_id corpora ++ dq
  ++ " LandingPageURI=" ++ dq ++ html_url ++ dq ++ ">" ++ nl.

Definition chapter_close : string := "</chapter>" ++ nl.

(** Line 147. *)
Definition postprocess (processed : string) : string :=
  replace (P_OPEN ++ nl ++ P_CLOSE ++ nl) ""
    (replace (S_OPEN ++ nl ++ S_CLOSE ++ nl) "" processed).

(** Lines 154-156. *)
Definition add_stats (d n : float) (k : nat) : M unit :=
  t <- get_time ;;
  set_time {| download := download t + d; nlp := nlp t + n;
              total := total t; tokens := tokens t + k |}.

Definition process_tei (tei_url : string) (corpora : corpus) (cfg : config)
  : M bool :=
  let html_url := replace ".xml" ".html" tei_url in
  t1 <- perf_counter ;;
  response <- requests_get tei_url ;;
  t2 <- perf_counter ;;
  let tei_content := clean_tei tei_url response in
  tree <- or_raise XMLSyntaxError (fromstring env tei_content) ;;
  write (chapter_open corpora html_url) ;;
  elements <- or_raise XPathEvalError (tree (corpus_xpath corpora)) ;;
  let text := segment elements in
  t3 <- perf_counter ;;
  let suffix := tab ++ html_url in
  b <- item "backend" (backend cfg) ;;
  processed <-
    (if String.eqb b "udppipe"
     then c <- item "udppipe" (udppipe cfg) ;;
          run_udp (strip text) (corpus_lang corpora) c suffix
     else c <- item "spacy" (spacy cfg) ;;
          run_spacy (strip text) (corpus_lang corpora) c suffix) ;;
  t4 <- perf_counter ;;
  let processed := postprocess processed in
  let tokens := count LF processed in
  write processed ;;
  write chapter_close ;;
  t5 <- perf_counter ;;
  add_stats (t2 - t1) (t4 - t3) tokens ;;
  ret true.

(* ------------------------------------------------------------------ *)
(** *** [create_vertical] *)

(** The [for i in range(10)] loop of lines 175-181, for [n] remaining
    rounds. *)
Fixpoint attempts (n : nat) (body : M bool) : M unit :=
  match n with
  | 0 => ret tt
  | S k =>
      done <- try_except (b <- body ;; ret b)
                         (fun e => print e ;; ret false) ;;
      if done then ret tt
      else sleep 5 ;; attempts k body
  end.

Definition fetch (tei_url : string) (corpora : corpus) (cfg : config)
  : M unit :=
  attempts 10 (process_tei tei_url corpora cfg).

(** The loop over [corpora["tei"].items()]. *)
Fixpoint chapters (docs : list (string * string)) (corpora : corpus)
  (cfg : config) : M unit :=
  match docs with
  | [] => ret tt
  | (tei_url, _) :: rest =>
      fetch tei_url corpora cfg ;;
      chapters rest corpora cfg
  end.

(** [f'<doc LandingPageURI="{corpora["landingPage"]}">\n'] *)
Definition doc_open (corpora : corpus) : string :=
  "<doc LandingPageURI=" ++ dq ++ corpus_landingPage corpora ++ dq
  ++ ">" ++ nl.

Definition doc_close : string := "</doc>" ++ nl.

Definition create_vertical (corpora : corpus) (cfg : config) : M bool :=
  write (doc_open corpora) ;;
  t0 <- perf_counter ;;
  set_time {| download := 0; nlp := 0; total := t0; tokens := 0 |} ;;
  chapters (corpus_tei corpora) corpora cfg ;;
  write doc_close ;;
  t <- get_time ;;
  t9 <- perf_counter ;;
  set_time {| download := download t; nlp := nlp t;
              total := t9 - total t; tokens := tokens t |} ;;
  ret true.

End Program.

(** The world in which [create_vertical] opens its output file. *)
Definition start : world :=
  {| file := "";
     time := {| download := 0; nlp := 0; total := 0; tokens := 0 |};
     trace := []; requests := 0; ticks := 0 |}.

(* ================================================================== *)
(** ** The vertical seen as a list of lines *)
(* ================================================================== *)

(** A string without the character [c]. *)
Definition free (c : ascii) (s : string) : Prop := count c s = 0.

(** The last character of [s] is [>]. *)
Fixpoint ends_gt (s : string) : bool :=
  match s with
  | "" => false
  | String c s' =>
      match s' with
      | "" => Ascii.eqb c ">"
      | String _ _ => ends_gt s'
      end
  end.

(** A landing-page reference that can stand in a line of the vertical: no
    line feed in it and no closing angle bracket. *)
Definition plain (url : string) : Prop :=
  free LF url /\ free ">" url.

(** [a] is never the proper end of the line [l]. *)
Definition whole (a l : string) : Prop := forall p, l = p ++ a -> p = "".

(** What deleting the text [a ++ nl ++ b ++ nl] does to the lines of a
    text: a line [a] directly followed by a line [b] is dropped with it,
    from left to right. *)
Fixpoint drop_pair (a b : string) (ls : list string) : list string :=
  match ls with
  | [] => []
  | l :: tl =>
      match tl with
      | [] => [l]
      | l2 :: rest =>
          if String.eqb l a && String.eqb l2 b
          then drop_pair a b rest
          else l :: drop_pair a b tl
      end
  end.

(** Some line [a] is directly followed by a line [b]. *)
Fixpoint adjacent (a b : string) (ls : list string) : bool :=
  match ls with
  | [] => false
  | l :: tl =>
      match tl with
      | [] => false
      | l2 :: _ => (String.eqb l a && String.eqb l2 b) || adjacent a b tl
      end
  end.

(** The lines of the formatters never show one of these pairs: an opening
    tag is only written after the matching outer opening or after a
    closing tag. *)
Definition forbidden (x y : string) : bool :=
  (String.eqb x S_OPEN && String.eqb y S_OPEN)
  || (String.eqb x P_OPEN && String.eqb y P_OPEN)
  || (String.eqb x S_CLOSE && String.eqb y P_OPEN)
  || (String.eqb x S_OPEN && String.eqb y P_OPEN).

Fixpoint well_nested (ls : list string) : bool :=
  match ls with
  | [] => true
  | l :: tl =>
      match tl with
      | [] => true
      | l2 :: _ => negb (forbidden l l2) && well_nested tl
      end
  end.

(** A group of lines appended at once by a formatter. *)
Definition chunk_ok (c : list string) : bool :=
  well_nested c
  && match c with
     | [] => true
     | l :: _ => negb (String.eqb l S_OPEN) && negb (String.eqb l P_OPEN)
     end.

(** A line is fit for the vertical when it holds no line feed and, unless
    it is a tag, does not end like one. *)
Definition line_ok (l : string) : Prop :=
  free LF l /\ (ends_gt l = true -> l = P_OPEN \/ l = P_CLOSE \/ l = S_OPEN
                                   \/ l = S_CLOSE \/ l = GLUE).

(** [udp_emit], line by line. *)
Definition udp_lines (suffix line : string) : list string :=
  if startswith "#" line || String.eqb (strip line) "" then []
  else
    let parts := split TAB line in
    if List.length parts <? 10 then []
    else
      let text := nth 1 parts "" in
      let lemma := nth 2 parts "" in
      let upos := nth 3 parts "" in
      if String.eqb text PAR_SEP then [S_CLOSE; P_CLOSE; P_OPEN; S_OPEN]
      else
        (text ++ tab ++ lemma ++ tab ++ upos ++ suffix)
        :: (if contains "SpaceAfter=No" (nth 9 parts "") then [GLUE] else []).

Definition udp_vertical_lines (result suffix : string) : list string :=
  ([P_OPEN; S_OPEN]
   ++ flat_map (udp_lines suffix) (split LF result)
   ++ [S_CLOSE; P_CLOSE])%list.

(** The lines of the post-processed body. *)
Definition postprocess_lines (ls : list string) : list string :=
  drop_pair P_OPEN P_CLOSE (drop_pair S_OPEN S_CLOSE ls).

(** The two patterns line 147 deletes: ["<s>\n</s>\n"] and ["<p>\n</p>\n"]. *)
Definition empty_s : string := S_OPEN ++ nl ++ S_CLOSE ++ nl.
Definition empty_p : string := P_OPEN ++ nl ++ P_CLOSE ++ nl.

(** [udp_lines] is the source's loop body read line by line; the token
    lines it writes never begin with the sentinel and a tab. *)
Definition sentinel_line (l : string) : bool :=
  startswith (PAR_SEP ++ tab) l.

(** A line that carries a token: the attributes are separated by tabs. *)
Definition is_token_line (l : string) : bool := contains tab l.

(** The token lines of a vertical. *)
Definition token_lines (vertical : string) : list string :=
  filter is_token_line (split LF vertical).

(* ================================================================== *)
(** ** Rounds of the retry loop *)
(* ================================================================== *)

Definition raises {A} (c : M A) (w : world) : bool :=
  match fst (c w) with
  | Raise _ => true
  | Return _ => false
  end.

Definition succeeds (c : M bool) (w : world) : bool :=
  match fst (c w) with
  | Return b => b
  | Raise _ => false
  end.

(** The world after one round of the loop in which [body] did not return
    a true value: the attempt, the printed message if it raised, and the
    pause of 5 seconds. *)
Definition failed_round (body : M bool) (w : world) : world :=
  match body w with
  | (Raise e, w') => snd ((print e ;; sleep 5) w')
  | (Return _, w') => snd (sleep 5 w')
  end.

Fixpoint after_failures (n : nat) (body : M bool) (w : world) : world :=
  match n with
  | 0 => w
  | S k => after_failures k body (failed_round body w)
  end.

Definition is_sleep (ev : event) : bool :=
  match ev with Sleep _ => true | _ => false end.

Definition is_load (ev : event) : bool :=
  match ev with Load _ => true | _ => false end.

(** the pauses and the model loads recorded in a world *)
Definition sleeps (w : world) : list event := filter is_sleep (trace w).
Definition loads (w : world) : list event := filter is_load (trace w).

(* ================================================================== *)
(** ** Sample documents, corpora and collaborators *)
(* ================================================================== *)

Module Sample.

(** a token record of the CoNLL-U payload, with its ten fields *)
Definition record (text lemma upos misc : string) : string :=
  String.concat tab ["1"; text; lemma; upos; "_"; "_"; "_"; "_"; "_"; misc].

Definition payload (lines : list string) : string :=
  String.concat nl lines.

Definition p1 : node := {| node_id := 1; node_tag := TEI_P |}.
Definition p2 : node := {| node_id := 2; node_tag := TEI_P |}.
Definition back : node :=
  {| node_id := 4; node_tag := "{http://www.tei-c.org/ns/1.0}back" |}.

Definition tei_url : string := "https://example.org/doc1.xml".
Definition html_url : string := "https://example.org/doc1.html".
Definition suffix : string := tab ++ html_url.

Definition corpora : corpus :=
  {| corpus_id := "demo";
     corpus_xpath := ".//tei:body//text()";
     corpus_lang := "en";
     corpus_tei := [(tei_url, "Document 1")];
     corpus_landingPage := "https://example.org/" |}.

Definition udp_cfg : config :=
  {| backend := Some "udppipe";
     udppipe := Some {| models := Some [("en", "english-ewt")];
                        apiUrl := Some "https://udpipe.example.org/process" |};
     spacy := Some {| models := Some [("en", "en_core_web_sm")];
                      apiUrl := None |} |}.

Definition spacy_cfg : config :=
  {| backend := Some "spacy";
     udppipe := udppipe udp_cfg;
     spacy := spacy udp_cfg |}.

(** a clock that advances by one second at each reading *)
Fixpoint seconds (n : nat) : float :=
  match n with
  | 0 => 0%float
  | S k => (seconds k + 1)%float
  end.

(** A world in which the document is served, parses to a tree whose
    selection is [elements], and the tagging service answers [answer]. *)
Definition served (elements : list smart_string)
  (answer : nat -> string -> option string) : environment :=
  {| http_get := fun _ _ => Some "<TEI/>";
     http_post := fun n _ _ data => answer n data;
     clock := seconds;
     fromstring := fun _ => Some (fun _ => Some elements);
     spacy_load := fun _ => None |}.

(** the service answers [result] when it is sent [text], and fails on any
    other text *)
Definition stub (text result : string) (n : nat) (data : string)
  : option string :=
  if String.eqb data text then Some result else None.

(* ---- the two paragraphs "Hello world." and "Foo." ---- *)

Definition hello_elements : list smart_string :=
  [ {| value := "Hello world."; ancestors := [p1] |};
    {| value := "Foo."; ancestors := [p2] |} ].

Definition hello_text : string := "Hello world.  PaRaSeP Foo.".

(** the tokens of the example, the sentinel of the text among them *)
Definition hello_payload : string :=
  payload [ "# sent_id = 1";
            record "Hello" "hello" "INTJ" "_";
            record "world" "world" "NOUN" "_";
            record "." "." "PUNCT" "SpaceAfter=No";
            "";
            "# sent_id = 2";
            record PAR_SEP PAR_SEP "PROPN" "_";
            "";
            "# sent_id = 3";
            record "Foo" "foo" "NOUN" "_";
            record "." "." "PUNCT" "SpaceAfter=No";
            "";
            "" ].

(** the five tokens of the example alone, in two sentences *)
Definition hello_payload_bare : string :=
  payload [ "# sent_id = 1";
            record "Hello" "hello" "INTJ" "_";
            record "world" "world" "NOUN" "_";
            record "." "." "PUNCT" "SpaceAfter=No";
            "";
            "# sent_id = 2";
            record "Foo" "foo" "NOUN" "_";
            record "." "." "PUNCT" "SpaceAfter=No";
            "";
            "" ].

Definition hello_env : environment :=
  served hello_elements (stub hello_text hello_payload).

Definition hello_env_bare : environment :=
  served hello_elements (stub hello_text hello_payload_bare).

(** the chapter body the example of the specification expects *)
Definition hello_expected : string :=
  unlines [ "<p>"; "<s>";
            "Hello" ++ tab ++ "hello" ++ tab ++ "INTJ" ++ suffix;
            "world" ++ tab ++ "world" ++ tab ++ "NOUN" ++ suffix;
            "." ++ tab ++ "." ++ tab ++ "PUNCT" ++ suffix;
            "</s>"; "</p>";
            "<p>"; "<s>";
            "Foo" ++ tab ++ "foo" ++ tab ++ "NOUN" ++ suffix;
            "." ++ tab ++ "." ++ tab ++ "PUNCT" ++ suffix;
            "</s>"; "</p>" ].

(** the chapter body the program writes *)
Definition hello_written : string :=
  unlines [ "<p>"; "<s>";
            "Hello" ++ tab ++ "hello" ++ tab ++ "INTJ" ++ suffix;
            "world" ++ tab ++ "world" ++ tab ++ "NOUN" ++ suffix;
            "." ++ tab ++ "." ++ tab ++ "PUNCT" ++ suffix;
            "<g/>";
            "</s>"; "</p>";
            "<p>"; "<s>";
            "Foo" ++ tab ++ "foo" ++ tab ++ "NOUN" ++ suffix;
            "." ++ tab ++ "." ++ tab ++ "PUNCT" ++ suffix;
            "<g/>";
            "</s>"; "</p>" ].

(** what it writes when the answer holds the five tokens alone *)
Definition hello_written_bare : string :=
  unlines [ "<p>"; "<s>";
            "Hello" ++ tab ++ "hello" ++ tab ++ "INTJ" ++ suffix;
            "world" ++ tab ++ "world" ++ tab ++ "NOUN" ++ suffix;
            "." ++ tab ++ "." ++ tab ++ "PUNCT" ++ suffix;
            "<g/>";
            "Foo" ++ tab ++ "foo" ++ tab ++ "NOUN" ++ suffix;
            "." ++ tab ++ "." ++ tab ++ "PUNCT" ++ suffix;
            "<g/>";
            "</s>"; "</p>" ].

End Sample.

Module Sample2.
Import Sample.

(* ---- two sentences of one paragraph ---- *)

Definition two_sentences : string :=
  payload [ "# sent_id = 1";
            record "One" "one" "NUM" "SpaceAfter=No";
            record "." "." "PUNCT" "_";
            "";
            "# sent_id = 2";
            record "Two" "two" "NUM" "SpaceAfter=No";
            record "." "." "PUNCT" "_";
            "";
            "" ].

(** what [run_udp] makes of them: one sentence element *)
Definition two_sentences_written : string :=
  unlines [ "<p>"; "<s>";
            "One" ++ tab ++ "one" ++ tab ++ "NUM" ++ suffix; "<g/>";
            "." ++ tab ++ "." ++ tab ++ "PUNCT" ++ suffix;
            "Two" ++ tab ++ "two" ++ tab ++ "NUM" ++ suffix; "<g/>";
            "." ++ tab ++ "." ++ tab ++ "PUNCT" ++ suffix;
            "</s>"; "</p>" ].

(** what the sentence rule of the specification asks for *)
Definition two_sentences_expected : string :=
  unlines [ "<p>"; "<s>";
            "One" ++ tab ++ "one" ++ tab ++ "NUM" ++ suffix; "<g/>";
            "." ++ tab ++ "." ++ tab ++ "PUNCT" ++ suffix;
            "</s>"; "<s>";
            "Two" ++ tab ++ "two" ++ tab ++ "NUM" ++ suffix; "<g/>";
            "." ++ tab ++ "." ++ tab ++ "PUNCT" ++ suffix;
            "</s>"; "</p>" ].

End Sample2.

Module Sample3.
Import Sample.

(* ---- spans of three blocks, one of them met twice in a row ---- *)


End Sample3.

Definition is_get (ev : event) : bool :=
  match ev with Get _ => true | _ => false end.

(** the fetches recorded in a world *)
Definition gets (w : world) : list event := filter is_get (trace w).

(** [n] copies of a text, one after the other *)
Fixpoint copies (n : nat) (s : string) : string :=
  match n with
  | 0 => ""
  | S k => s ++ copies k s
  end.

Module Sample4.
Import Sample.

(* ---- a server that fails [n] times before it serves the document ---- *)

Definition flaky (n : nat) : environment :=
  {| http_get := fun k _ => if k <? n then None else Some "<TEI/>";
     http_post := fun _ _ _ data => stub hello_text hello_payload 0 data;
     clock := seconds;
     fromstring := fun _ => Some (fun _ => Some hello_elements);
     spacy_load := fun _ => None |}.

(* ---- a tagging service that fails at its first call ---- *)

Definition flaky_service : environment :=
  served hello_elements
    (fun k data => if k =? 1 then None else stub hello_text hello_payload k data).

End Sample4.

Module Sample5.
Import Sample.

(* ---- the same documents, annotated in process ---- *)

Definition word (text lemma pos : string) (s : nat) : Token :=
  {| tok_text := text; lemma_ := lemma; pos_ := pos;
     tok_is_space := false; is_punct := false; sent := s |}.

Definition punct (text : string) (s : nat) : Token :=
  {| tok_text := text; lemma_ := text; pos_ := "PUNCT";
     tok_is_space := false; is_punct := true; sent := s |}.

Definition space (text : string) (s : nat) : Token :=
  {| tok_text := text; lemma_ := text; pos_ := "SPACE";
     tok_is_space := true; is_punct := false; sent := s |}.

Definition hello_doc : Doc :=
  {| has_sent_start := true;
     doc_tokens := [ word "Hello" "hello" "INTJ" 0;
                     word "world" "world" "NOUN" 0;
                     punct "." 0;
                     space " " 0;
                     word PAR_SEP PAR_SEP "PROPN" 1;
                     word "Foo" "foo" "NOUN" 1;
                     punct "." 1 ] |}.

Definition in_process (elements : list smart_string) (doc : Doc)
  : environment :=
  {| http_get := fun _ _ => Some "<TEI/>";
     http_post := fun _ _ _ _ => None;
     clock := seconds;
     fromstring := fun _ => Some (fun _ => Some elements);
     spacy_load := fun _ => Some (fun _ => Some doc) |}.

Definition two_documents : corpus :=
  {| corpus_id := "demo";
     corpus_xpath := ".//tei:body//text()";
     corpus_lang := "en";
     corpus_tei := [(tei_url, "Document 1");
                    ("https://example.org/doc2.xml", "Document 2")];
     corpus_landingPage := "https://example.org/" |}.

(* ---- "a,b": a comma and a word with no space between them ---- *)

Definition comma_doc : Doc :=
  {| has_sent_start := true;
     doc_tokens := [ word "a" "a" "NOUN" 0; punct "," 0;
                     word "b" "b" "NOUN" 0 ] |}.

Definition comma_lines : list string :=
  [ "<p>"; "<s>";
    "a" ++ tab ++ "a" ++ tab ++ "NOUN" ++ suffix;
    "<g/>";
    "," ++ tab ++ "," ++ tab ++ "PUNCT" ++ suffix;
    "b" ++ tab ++ "b" ++ tab ++ "NOUN" ++ suffix;
    "</s>"; "</p>" ].

(* ---- one paragraph in which the sentinel is a word of the text ---- *)

Definition quoting_elements : list smart_string :=
  [ {| value := "a PaRaSeP b"; ancestors := [p1] |} ].

Definition quoting_payload : string :=
  payload [ record "a" "a" "X" "_";
            record PAR_SEP PAR_SEP "PROPN" "_";
            record "b" "b" "X" "_" ].

Definition quoting_written : string :=
  unlines [ "<p>"; "<s>";
            "a" ++ tab ++ "a" ++ tab ++ "X" ++ suffix;
            "</s>"; "</p>";
            "<p>"; "<s>";
            "b" ++ tab ++ "b" ++ tab ++ "X" ++ suffix;
            "</s>"; "</p>" ].

Definition quoting_env : environment :=
  served quoting_elements (stub "a PaRaSeP b" quoting_payload).

(* ---- a span outside any paragraph, then a paragraph ---- *)

Definition back_matter : list smart_string :=
  [ {| value := "Notes"; ancestors := [back] |};
    {| value := "Text."; ancestors := [p1] |} ].

End Sample5.

(* ================================================================== *)
(** ** Tokens and what stands between their lines *)
(* ================================================================== *)

(** A line of the payload that [run_udp] writes as a token line. *)
Definition udp_is_token (line : string) : bool :=
  negb (startswith "#" line || String.eqb (strip line) "")
  && negb (List.length (split TAB line) <? 10)
  && negb (String.eqb (nth 1 (split TAB line) "") PAR_SEP).

(** A line of the payload that [run_udp] turns into a paragraph break. *)
Definition udp_is_sentinel (line : string) : bool :=
  negb (startswith "#" line || String.eqb (strip line) "")
  && negb (List.length (split TAB line) <? 10)
  && String.eqb (nth 1 (split TAB line) "") PAR_SEP.

Definition udp_token_line (suffix line : string) : string :=
  token_line (nth 1 (split TAB line) "") (nth 2 (split TAB line) "")
             (nth 3 (split TAB line) "") suffix.

(** the flag of the tenth field *)
Definition udp_no_space_after (line : string) : bool :=
  contains "SpaceAfter=No" (nth 9 (split TAB line) "").

(** A token of the document that [run_spacy] writes as a token line. *)
Definition spacy_is_token (token : Token) : bool :=
  negb (tok_is_space token) && negb (String.eqb (tok_text token) PAR_SEP).

(** The state of the loop of [run_spacy] after the tokens [ts]. *)
Definition spacy_after (text suffix : string) (ts : list Token)
  : spacy_state :=
  fold_left (spacy_step suffix) ts
    {| sp_vertical := open_par; sp_sent := None; sp_text := text |}.

(** The lines one token adds to the vertical in [run_spacy]. *)
Definition spacy_chunk (suffix : string) (st : spacy_state) (token : Token)
  : list string :=
  if tok_is_space token then []
  else
    ((if negb (match sp_sent st with
               | Some s => s
               | None => sent token
               end =? sent token)
      then [S_CLOSE; S_OPEN] else [])
     ++ (if negb (match_space (sp_text st)) && is_punct token
         then [GLUE] else [])
     ++ (if String.eqb (tok_text token) PAR_SEP
         then [S_CLOSE; P_CLOSE; P_OPEN; S_OPEN]
         else [(tok_text token ++ tab
                ++ (if negb (is_punct token) then lemma_ token
                    else tok_text token)
                ++ tab ++ pos_ token ++ suffix)%string]))%list.

Fixpoint spacy_chunks (suffix : string) (st : spacy_state)
  (ts : list Token) : list (list string) :=
  match ts with
  | [] => []
  | t :: ts' =>
      spacy_chunk suffix st t
      :: spacy_chunks suffix (spacy_step suffix st t) ts'
  end.

Definition spacy_vertical_lines (doc : Doc) (text suffix : string)
  : list string :=
  ([P_OPEN; S_OPEN]
   ++ concat (spacy_chunks suffix
                {| sp_vertical := open_par; sp_sent := None;
                   sp_text := text |}
                (doc_tokens doc))
   ++ [S_CLOSE; P_CLOSE])%list.

(** The attributes of a token that is written hold no line feed, and its
    text no tab. *)
Definition token_plain (token : Token) : Prop :=
  tok_is_space token = false ->
  free LF (tok_text token) /\ free TAB (tok_text token)
  /\ free LF (lemma_ token) /\ free LF (pos_ token).

(* ================================================================== *)
(** ** Further observations on a run *)
(* ================================================================== *)

Definition is_post (ev : event) : bool :=
  match ev with Post _ _ _ => true | _ => false end.

(** the calls of the tagging service recorded in a world *)
Definition posts (w : world) : list event := filter is_post (trace w).

(** An element that stops the walk of [get_paragraph]. *)
Definition is_block (n : node) : bool :=
  String.eqb (node_tag n) TEI_P || String.eqb (node_tag n) TEI_BODY.

(** The document is served at every request, parses, and the selection
    expression evaluates on it. *)
Definition available (env : environment) (tei_url xpath : string) : Prop :=
  forall n, exists response tree elements,
    http_get env n tei_url = Some response
    /\ fromstring env (clean_tei tei_url response) = Some tree
    /\ tree xpath = Some elements.

Module Sample6.
Import Sample.

(* ---- a selection that holds white space only ---- *)

Definition blank_elements : list smart_string :=
  [ {| value := " "; ancestors := [p1] |};
    {| value := String LF " "; ancestors := [p2] |} ].

Definition blank_env : environment :=
  served blank_elements (stub "" "").

(* ---- a corpus in a language the tagging service has no model for ---- *)

Definition czech : corpus :=
  {| corpus_id := "demo";
     corpus_xpath := ".//tei:body//text()";
     corpus_lang := "cs";
     corpus_tei := [(tei_url, "Document 1")];
     corpus_landingPage := "https://example.org/" |}.

End Sample6.

(* ================================================================== *)
(** ** [main]: the key of a corpus and the paths of its files *)
(* ================================================================== *)

(** a character of the class [a-zA-Z0-9] *)
Definition is_alnum (c : ascii) : bool :=
  let n := nat_of_ascii c in
  ((48 <=? n) && (n <=? 57)) || ((65 <=? n) && (n <=? 90))
  || ((97 <=? n) && (n <=? 122)).

(** [sub("[^a-zA-Z0-9]", "", key)] (line 279) *)
Fixpoint sanitize (key : string) : string :=
  match key with
  | "" => ""
  | String c k => if is_alnum c then String c (sanitize k) else sanitize k
  end.

(** [s.endswith("/")] *)
Fixpoint ends_with_sep (s : string) : bool :=
  match s with
  | "" => false
  | String c s' =>
      match s' with
      | "" => Ascii.eqb c "/"
      | String _ _ => ends_with_sep s'
      end
  end.

(** [os.path.join(a, b)] on a POSIX system *)
Definition path_join (a b : string) : string :=
  if startswith "/" b then b
  else if String.eqb a "" || ends_with_sep a then a ++ b
  else a ++ "/" ++ b.

(** [os.path.basename(p)]: what follows the last slash *)
Definition basename (p : string) : string := last (split "/" p) "".

(** The [cfg] dict, as far as [create_config] reads it. *)
Record base_paths := {
  bp_data : option string;          (* cfg["basePath"]["data"] *)
  bp_vertical : option string       (* cfg["basePath"]["vertical"] *)
}.

Record site := {
  maintainer : option string;
  basePath : option base_paths;
  langMap : option (list (string * string));
  corporaConfig : option string;
  outputDir : string
}.

(** The fields of the [corpora] dict that [process_tei] does not read. *)
Record registry_entry := {
  entry : corpus;
  corpus_title : string;
  corpus_pid : string;
  corpus_vertical : string
}.

(** [f'{name} "{v}"\n'] *)
Definition config_line (name v : string) : string :=
  name ++ " " ++ dq ++ v ++ dq ++ nl.

(** The file system, as far as [open(path, "w")] asks it: whether the
    file of that name can be created or truncated. *)
Record filesystem := { writable : string -> bool }.

(** Whether [open(output_path, "w")] returns a file.  No file system
    opens the empty path or a path that ends with a slash for writing
    (FileNotFoundError, IsADirectoryError); for any other path the file
    system decides. *)
Definition can_open (fs : filesystem) (output_path : string) : bool :=
  negb (String.eqb output_path "" || ends_with_sep output_path)
  && writable fs output_path.

(** [create_config] (lines 192-205).  The [file] of the world is what the
    handle [f] has received. *)
Definition create_config (fs : filesystem) (corpora : registry_entry)
  (output_path : string) (cfg : site) : M unit :=
  (if can_open fs output_path then ret tt else raise OSError) ;;
  m <- item "maintainer" (maintainer cfg) ;;
  write (config_line "MAINTAINER" m) ;;
  write (config_line "INFO" (corpus_title corpora)) ;;
  write (config_line "NAME" (corpus_id (entry corpora))) ;;
  write (config_line "INFOHREF" (corpus_landingPage (entry corpora))) ;;
  bp <- item "basePath" (basePath cfg) ;;
  d <- item "data" (bp_data bp) ;;
  write (config_line "PATH" (path_join d (corpus_id (entry corpora)))) ;;
  lm <- item "langMap" (langMap cfg) ;;
  l <- item (corpus_lang (entry corpora))
            (lookup (corpus_lang (entry corpora)) lm) ;;
  write (config_line "LANGUAGE" l) ;;
  bp <- item "basePath" (basePath cfg) ;;
  v <- item "vertical" (bp_vertical bp) ;;
  write (config_line "VERTICAL"
           (path_join v (basename (corpus_vertical corpora)))) ;;
  cc <- item "corporaConfig" (corporaConfig cfg) ;;
  write cc.

(** [path_config] of [main] (lines 279 and 285): the path at which the
    configuration of the corpus with the source key [key] is written. *)
Definition config_path (cfg : site) (key : string) : string :=
  path_join (outputDir cfg) (sanitize key).

(** The [corpora] dict that [main] builds for a source key (lines
    279-296). *)
Definition register (cfg : site) (key title xpath landingpage lang pid : string)
  (teis : list (string * string)) : registry_entry :=
  let key := sanitize key in
  let path_config := path_join (outputDir cfg) key in
  let path_vertical := path_config ++ ".vrt" in
  {| entry := {| corpus_id := key; corpus_xpath := xpath;
                 corpus_lang := lang; corpus_tei := teis;
                 corpus_landingPage := landingpage |};
     corpus_title := title; corpus_pid := pid;
     corpus_vertical := path_vertical |}.

(* ================================================================== *)
(** ** [get_tei_locations]: a dict from two lists *)
(* ================================================================== *)

(** [d[k] = v] on a dict kept in insertion order *)
Fixpoint dict_set (k v : string) (d : list (string * string))
  : list (string * string) :=
  match d with
  | [] => [(k, v)]
  | (k', v') :: d' =>
      if String.eqb k k' then (k', v) :: d' else (k', v') :: dict_set k v d'
  end.

(** [dict(pairs)] *)
Definition dict_of (pairs : list (string * string)) : list (string * string) :=
  fold_left (fun d kv => dict_set (fst kv) (snd kv) d) pairs [].

(** [dict(zip(ids, titles))] (line 21), for the two lists that the xpath
    queries of lines 19-20 return. *)
Definition tei_locations (ids titles : list string)
  : list (string * string) :=
  dict_of (combine ids titles).

Module Sample7.

Definition paths : base_paths :=
  {| bp_data := Some "/var/lib/manatee/data";
     bp_vertical := Some "/var/lib/manatee/vert/" |}.

Definition cfg : site :=
  {| maintainer := Some "admin@example.org";
     basePath := Some paths;
     langMap := Some [("de", "German"); ("en", "English")];
     corporaConfig := Some ("ENCODING " ++ dq ++ "UTF-8" ++ dq ++ nl);
     outputDir := "data" |}.

Definition schnitzler : registry_entry :=
  register cfg "schnitzler-briefe" "Schnitzler Briefe" "//tei:body//text()"
    "https://schnitzler-briefe.example.org" "de" "hdl:1/2"
    [(Sample.tei_url, "L00001")].

Definition latin : registry_entry :=
  register cfg "acta.1" "Acta" "//tei:body//text()"
    "https://acta.example.org" "la" "hdl:1/3" [].

(** a file system that refuses no regular path *)
Definition disk : filesystem := {| writable := fun _ => true |}.

End Sample7.

(* ================================================================== *)
(** ** [run_spacy]: the text behind the tokens *)
(* ================================================================== *)

(** The tokens of a document that are not white space. *)
Definition written_tokens (doc : Doc) : list Token :=
  filter (fun t => negb (tok_is_space t)) (doc_tokens doc).

(** A text spelled as its tokens, each after the characters that stand
    between it and the token before, and what follows the last one. *)
Fixpoint spell (items : list (string * Token)) (tail : string) : string :=
  match items with
  | [] => tail
  | (gap, t) :: rest => gap ++ tok_text t ++ spell rest tail
  end.

(** The lines expected for a token that stands after [gap]. *)
Definition aligned_chunk (suffix : string) (prev : option nat)
  (gap : string) (t : Token) : list string :=
  ((if negb (match prev with Some s => s | None => sent t end =? sent t)
    then [S_CLOSE; S_OPEN] else [])
   ++ (if String.eqb gap "" && is_punct t then [GLUE] else [])
   ++ (if String.eqb (tok_text t) PAR_SEP
       then [S_CLOSE; P_CLOSE; P_OPEN; S_OPEN]
       else [(tok_text t ++ tab
              ++ (if negb (is_punct t) then lemma_ t else tok_text t)
              ++ tab ++ pos_ t ++ suffix)%string]))%list.

Fixpoint aligned_lines (suffix : string) (prev : option nat)
  (items : list (string * Token)) : list string :=
  match items with
  | [] => []
  | (gap, t) :: rest =>
      (aligned_chunk suffix prev gap t
       ++ aligned_lines suffix (Some (sent t)) rest)%list
  end.

(** A gap is white space only; a written token is not empty and does not
    begin with white space. *)
Definition spelled (item : string * Token) : Prop :=
  lstrip (fst item) = ""
  /\ tok_text (snd item) <> ""
  /\ match_space (tok_text (snd item)) = false.

Module Sample8.
Import Sample5.

Definition hello_items : list (string * Token) :=
  [ ("", word "Hello" "hello" "INTJ" 0);
    (" ", word "world" "world" "NOUN" 0);
    ("", punct "." 0);
    ("  ", word PAR_SEP PAR_SEP "PROPN" 1);
    (" ", word "Foo" "foo" "NOUN" 1);
    ("", punct "." 1) ].

End Sample8.

(* ================================================================== *)
(** ** [update_corpora_yaml.py]: the metadata files put together *)
(* ================================================================== *)

Fixpoint insert_sorted (x : string) (l : list string) : list string :=
  match l with
  | [] => [x]
  | y :: l' =>
      if String.leb x y then x :: l else y :: insert_sorted x l'
  end.

(** [sorted(files)]: the names in ascending order of their code points *)
Definition sorted (files : list string) : list string :=
  fold_right insert_sorted [] files.

(** The text that the script prints and writes to [tmp.yaml], for the
    names that [glob.glob] returns and the content read from each. *)
Definition combined_text (read : string -> string) (files : list string)
  : string :=
  fold_left (fun acc x => acc ++ read x) (sorted files) "".

(* ================================================================== *)
(** ** The fetches of a corpus *)
(* ================================================================== *)


(* ================================================================== *)
(** ** The text of the Segmenter, span by span *)
(* ================================================================== *)

(** [s.count(sub)] for a non-empty [sub]: the occurrences are taken from
    left to right and do not overlap.  [skip] counts the characters of
    the current occurrence that are still to be passed over. *)
Fixpoint count_from (skip : nat) (sub s : string) : nat :=
  match s with
  | "" => 0
  | String _ s' =>
      match skip with
      | S k => count_from k sub s'
      | 0 =>
          if prefix sub s
          then S (count_from (String.length sub - 1) sub s')
          else count_from 0 sub s'
      end
  end.

Definition occurrences (sub s : string) : nat := count_from 0 sub s.

(** The text that the spec describes for spans with their blocks: the
    spans in their order, each followed by a space, and the sentinel
    between two spans whose blocks differ. *)
Fixpoint marked_spans (prev : option node)
  (ss : list (string * option node)) : string :=
  match ss with
  | [] => ""
  | (part, b) :: rest =>
      (if same_node b prev then "" else " PaRaSeP ")
      ++ part ++ " " ++ marked_spans b rest
  end.

Definition segmenter_text (ss : list (string * option node)) : string :=
  match ss with
  | [] => ""
  | (part, b) :: rest => part ++ " " ++ marked_spans b rest
  end.


Module Sample9.
Import Sample.

(* ---- <TEI><text><body><p>One</p></body>
                     <back>Notes<div><p>Text.</p></div></back></text></TEI>,
        selected with .//tei:text//text() ---- *)

Definition tei : node :=
  {| node_id := 5; node_tag := "{http://www.tei-c.org/ns/1.0}TEI" |}.
Definition text : node :=
  {| node_id := 6; node_tag := "{http://www.tei-c.org/ns/1.0}text" |}.
Definition body : node := {| node_id := 7; node_tag := TEI_BODY |}.
Definition div : node :=
  {| node_id := 8; node_tag := "{http://www.tei-c.org/ns/1.0}div" |}.

Definition with_notes : list smart_string :=
  [ {| value := "One"; ancestors := [p1; body; text; tei] |};
    {| value := "Notes"; ancestors := [back; text; tei] |};
    {| value := "Text."; ancestors := [p2; div; back; text; tei] |} ].

End Sample9.

(* ================================================================== *)
(** * Facts about the string operations *)
(* ================================================================== *)

Module PyFacts.

Lemma app_nil_r (s : string) : s ++ "" = s.
Proof. induction s as [|c s IH]; simpl; [reflexivity | now rewrite IH]. Qed.

Lemma app_assoc (a b c : string) : (a ++ b) ++ c = a ++ b ++ c.
Proof. induction a as [|x a IH]; simpl; [reflexivity | now rewrite IH]. Qed.

Lemma length_app (a b : string) :
  String.length (a ++ b) = String.length a + String.length b.
Proof. induction a as [|x a IH]; simpl; [reflexivity | now rewrite IH]. Qed.

Lemma count_app (c : ascii) (a b : string) :
  count c (a ++ b) = count c a + count c b.
Proof.
  induction a as [|x a IH]; simpl; [reflexivity|].
  rewrite IH. lia.
Qed.

Lemma prefix_app (p r : string) : prefix p (p ++ r) = true.
Proof.
  induction p as [|x p IH]; simpl.
  - now destruct r.
  - destruct (ascii_dec x x) as [_|n]; [exact IH | now elim n].
Qed.

Lemma prefix_split (p s : string) :
  prefix p s = true -> exists r, s = p ++ r.
Proof.
  revert s. induction p as [|x p IH]; intros s H.
  - now exists s.
  - destruct s as [|y s]; simpl in H; [discriminate|].
    destruct (ascii_dec x y) as [->|]; [|discriminate].
    destruct (IH _ H) as [r ->]. now exists r.
Qed.

Lemma prefix_cons (x y : ascii) (p s : string) :
  prefix (String x p) (String y s) = Ascii.eqb x y && prefix p s.
Proof.
  simpl. destruct (ascii_dec x y) as [->|n].
  - now rewrite Ascii.eqb_refl.
  - apply Ascii.eqb_neq in n. now rewrite n.
Qed.

(** A match at the head of the text is replaced, and the scan goes on
    after it. *)
Lemma replace_skip (old new p r : string) :
  replace_from (String.length p) old new (p ++ r) = replace_from 0 old new r.
Proof.
  induction p as [|x p IH]; simpl; [reflexivity | exact IH].
Qed.

Lemma replace_match (old new r : string) :
  old <> "" -> replace old new (old ++ r) = new ++ replace old new r.
Proof.
  intros Hne. unfold replace. destruct old as [|x old]; [now elim Hne|].
  change (String x old ++ r) with (String x (old ++ r)).
  cbn [replace_from].
  replace (prefix (String x old) (String x (old ++ r))) with true
    by (symmetry; exact (prefix_app (String x old) r)).
  change (String.length (String x old) - 1) with (String.length old - 0).
  rewrite Nat.sub_0_r. now rewrite replace_skip.
Qed.

Lemma replace_nomatch (old new : string) (c : ascii) (s : string) :
  prefix old (String c s) = false ->
  replace old new (String c s) = String c (replace old new s).
Proof. intros H. unfold replace. cbn [replace_from]. now rewrite H. Qed.

Lemma replace_nil (old new : string) : replace old new "" = "".
Proof. reflexivity. Qed.

(** Two texts cut at the first [c] agree on both sides of the cut. *)
Lemma prefix_cut (c : ascii) (a t l r : string) :
  free c a -> free c l ->
  prefix (a ++ String c t) (l ++ String c r) = true ->
  l = a /\ prefix t r = true.
Proof.
  unfold free. revert l. induction a as [|x a IH]; intros l Ha Hl H.
  - destruct l as [|y l]; cbn in *.
    + destruct (ascii_dec c c); [now split | discriminate].
    + destruct (ascii_dec c y) as [<-|]; [|discriminate].
      rewrite Ascii.eqb_refl in Hl. discriminate.
  - cbn in Ha. destruct (Ascii.eqb x c) eqn:E; [discriminate|].
    destruct l as [|y l]; cbn in H.
    + destruct (ascii_dec x c) as [->|]; [|discriminate].
      rewrite Ascii.eqb_refl in E. discriminate.
    + destruct (ascii_dec x y) as [<-|]; [|discriminate].
      cbn in Hl. rewrite E in Hl.
      destruct (IH l Ha Hl H) as [-> Ht]. now split.
Qed.

Lemma unlines_app (a b : list string) :
  unlines (a ++ b) = unlines a ++ unlines b.
Proof.
  induction a as [|l a IH]; simpl; [reflexivity|].
  rewrite IH. now rewrite !app_assoc.
Qed.

Lemma unlines_cons (l : string) (ls : list string) :
  unlines (l :: ls) = l ++ nl ++ unlines ls.
Proof. reflexivity. Qed.

End PyFacts.

Import PyFacts.

(* ================================================================== *)
(** * Deleting a pair of lines from a text *)
(* ================================================================== *)

Section PairOfLines.

Variables a b : string.
Hypothesis a_not_empty : a <> "".
Hypothesis a_free : free LF a.
Hypothesis b_free : free LF b.

Local Abbreviation old := (a ++ nl ++ b ++ nl).
Local Abbreviation whole := (whole a).

Lemma old_not_empty : old <> "".
Proof.
  destruct a; [now elim a_not_empty | discriminate].
Qed.

Lemma no_match_at_lf (r : string) : prefix old (String LF r) = false.
Proof.
  destruct a as [|x a']; [now elim a_not_empty|].
  change (String x a' ++ nl ++ b ++ nl) with (String x (a' ++ nl ++ b ++ nl)).
  rewrite prefix_cons.
  unfold free in a_free. cbn in a_free.
  destruct (Ascii.eqb x LF) eqn:E; [discriminate | reflexivity].
Qed.

(** Where the pattern can start inside a line. *)
Lemma match_in_line (l' r : string) :
  free LF l' -> prefix old (l' ++ nl ++ r) = true ->
  l' = a /\ prefix (b ++ nl) r = true.
Proof.
  intros Hl H.
  change (a ++ nl ++ b ++ nl) with (a ++ String LF (b ++ nl)) in H.
  change (l' ++ nl ++ r) with (l' ++ String LF r) in H.
  exact (prefix_cut LF a (b ++ nl) l' r a_free Hl H).
Qed.

Lemma next_line_is_b (l2 r : string) :
  free LF l2 -> prefix (b ++ nl) (l2 ++ nl ++ r) = true -> l2 = b.
Proof.
  intros Hl H.
  change (b ++ nl) with (b ++ String LF "") in H.
  change (l2 ++ nl ++ r) with (l2 ++ String LF r) in H.
  now destruct (prefix_cut LF b "" l2 r b_free Hl H).
Qed.

Lemma free_suffix (c : ascii) (p l' : string) :
  free c (p ++ l') -> free c l'.
Proof. unfold free. rewrite count_app. lia. Qed.

(** A line in which the pattern starts nowhere is copied. *)
Lemma replace_line (l r : string) :
  (forall p l', l = p ++ l' -> prefix old (l' ++ nl ++ r) = false) ->
  replace old "" (l ++ nl ++ r) = l ++ nl ++ replace old "" r.
Proof.
  induction l as [|c l IH]; intros H.
  - change ("" ++ nl ++ r) with (String LF r).
    rewrite replace_nomatch; [reflexivity | apply no_match_at_lf].
  - change (String c l ++ nl ++ r) with (String c (l ++ nl ++ r)).
    rewrite replace_nomatch.
    + rewrite IH; [reflexivity|].
      intros p l' ->. apply (H (String c p) l'). reflexivity.
    + exact (H "" (String c l) eq_refl).
Qed.

Lemma contains_line (l r : string) :
  (forall p l', l = p ++ l' -> prefix old (l' ++ nl ++ r) = false) ->
  contains old (l ++ nl ++ r) = contains old r.
Proof.
  induction l as [|c l IH]; intros H.
  - change ("" ++ nl ++ r) with (String LF r).
    cbn [contains]. now rewrite no_match_at_lf.
  - change (String c l ++ nl ++ r) with (String c (l ++ nl ++ r)).
    cbn [contains].
    assert (H0 : prefix old (String c (l ++ nl ++ r)) = false)
      by exact (H "" (String c l) eq_refl).
    rewrite H0. cbn [orb].
    apply IH. intros p l' ->. apply (H (String c p) l'). reflexivity.
Qed.

(** The pattern starts in the line [l] only when [l] is [a] and the next
    line is [b]. *)
Lemma no_match_in_line (l : string) (rest : list string) :
  free LF l -> whole l -> Forall (free LF) rest ->
  match rest with
  | [] => True
  | l2 :: _ => String.eqb l a && String.eqb l2 b = false
  end ->
  forall p l', l = p ++ l' -> prefix old (l' ++ nl ++ unlines rest) = false.
Proof.
  intros Hl Hw Hrest Hpair p l' E.
  destruct (prefix old (l' ++ nl ++ unlines rest)) eqn:Hm; [|reflexivity].
  exfalso.
  assert (Hl' : free LF l') by (subst l; exact (free_suffix _ _ _ Hl)).
  destruct (match_in_line _ _ Hl' Hm) as [-> Hb].
  assert (p = "") by (apply Hw; exact E). subst p. cbn in E. subst l.
  destruct rest as [|l2 rest'].
  - cbn in Hb. destruct b; cbn in Hb; discriminate.
  - inversion Hrest as [|? ? Hl2 _]; subst.
    rewrite unlines_cons in Hb.
    apply next_line_is_b in Hb; [|exact Hl2]. subst l2.
    rewrite !String.eqb_refl in Hpair. discriminate.
Qed.

Lemma drop_pair_cons2 (l l2 : string) (rest : list string) :
  drop_pair a b (l :: l2 :: rest) =
  if String.eqb l a && String.eqb l2 b then drop_pair a b rest
  else l :: drop_pair a b (l2 :: rest).
Proof. reflexivity. Qed.

(** [str.replace], read on the lines of the text. *)
Lemma replace_lines_bounded (n : nat) (ls : list string) :
  List.length ls <= n ->
  Forall (free LF) ls -> Forall whole ls ->
  replace old "" (unlines ls) = unlines (drop_pair a b ls).
Proof.
  revert ls. induction n as [|n IH]; intros ls Hn Hf Hw.
  - destruct ls; [reflexivity | cbn in Hn; lia].
  - destruct ls as [|l [|l2 rest]].
    + reflexivity.
    + inversion Hf; inversion Hw; subst.
      cbn [drop_pair]. rewrite !unlines_cons.
      rewrite replace_line; [reflexivity|].
      apply no_match_in_line; auto.
    + inversion Hf as [|? ? Hl Hf']; inversion Hw as [|? ? Hwl Hw']; subst.
      rewrite drop_pair_cons2.
      destruct (String.eqb l a && String.eqb l2 b) eqn:E.
      * apply andb_prop in E. destruct E as [E1 E2].
        apply String.eqb_eq in E1, E2. subst l l2.
        replace (unlines (a :: b :: rest)) with (old ++ unlines rest).
        2:{ rewrite !unlines_cons. now rewrite !app_assoc. }
        rewrite replace_match by exact old_not_empty.
        cbn [append]. apply IH.
        -- cbn in Hn. lia.
        -- now inversion Hf'.
        -- now inversion Hw'.
      * rewrite unlines_cons, replace_line.
        -- rewrite IH; [now rewrite unlines_cons | cbn in Hn |- *; lia | auto | auto].
        -- apply no_match_in_line; auto.
Qed.

Lemma replace_lines (ls : list string) :
  Forall (free LF) ls -> Forall whole ls ->
  replace old "" (unlines ls) = unlines (drop_pair a b ls).
Proof. apply (replace_lines_bounded (List.length ls)). lia. Qed.

(** The pattern occurs in a text only where a line [a] is followed by a
    line [b]. *)
Lemma contains_lines (ls : list string) :
  Forall (free LF) ls -> Forall whole ls ->
  adjacent a b ls = false ->
  contains old (unlines ls) = false.
Proof.
  induction ls as [|l ls IH]; intros Hf Hw Hadj.
  - cbn. destruct a; [now elim a_not_empty | reflexivity].
  - inversion Hf as [|? ? Hl Hf']; inversion Hw as [|? ? Hwl Hw']; subst.
    rewrite unlines_cons, contains_line.
    + apply IH; auto.
      destruct ls as [|l2 ls']; [reflexivity|].
      cbn [adjacent] in Hadj. now apply orb_false_elim in Hadj.
    + apply no_match_in_line; auto.
      destruct ls as [|l2 ls']; [exact I|].
      cbn [adjacent] in Hadj. now apply orb_false_elim in Hadj.
Qed.

Lemma drop_pair_incl (ls : list string) (x : string) :
  In x (drop_pair a b ls) -> In x ls.
Proof.
  assert (H : forall n ls, List.length ls <= n ->
                           In x (drop_pair a b ls) -> In x ls).
  { clear ls. induction n as [|n IH]; intros ls Hn Hin.
    - destruct ls; [exact Hin | cbn in Hn; lia].
    - destruct ls as [|l [|l2 rest]]; [exact Hin | exact Hin|].
      rewrite drop_pair_cons2 in Hin.
      destruct (String.eqb l a && String.eqb l2 b).
      + right; right. apply IH; [cbn in Hn; lia | exact Hin].
      + destruct Hin as [<-|Hin]; [now left|].
        right. apply IH; [cbn in Hn |- *; lia | exact Hin]. }
  apply (H (List.length ls)). lia.
Qed.

End PairOfLines.

(* ================================================================== *)
(** * Adjacent lines before and after a deletion *)
(* ================================================================== *)

Section Adjacency.

Variables a b : string.

Lemma adjacent_cons (x y l : string) (ls : list string) :
  adjacent x y ls = true -> adjacent x y (l :: ls) = true.
Proof.
  intros H. destruct ls as [|l2 ls]; [discriminate|].
  cbn [adjacent] in *. rewrite H. apply orb_true_r.
Qed.

Lemma adjacent_head (x y : string) (ls : list string) :
  adjacent x y (x :: y :: ls) = true.
Proof. cbn [adjacent]. now rewrite !String.eqb_refl. Qed.

Lemma adjacent_inv (x y l l2 : string) (ls : list string) :
  adjacent x y (l :: l2 :: ls) = true ->
  (l = x /\ l2 = y) \/ adjacent x y (l2 :: ls) = true.
Proof.
  cbn [adjacent]. intros H. apply orb_prop in H. destruct H as [H|H].
  - apply andb_prop in H. destruct H as [H1 H2].
    apply String.eqb_eq in H1, H2. now left.
  - now right.
Qed.

(** The first line left by a deletion is the first line of the text, or
    follows a deleted pair. *)
Lemma drop_pair_head (n : nat) :
  forall ls y out, List.length ls <= n ->
  drop_pair a b ls = y :: out ->
  (exists tl, ls = y :: tl)
  \/ (exists tl, ls = a :: b :: tl /\ adjacent b y ls = true).
Proof.
  induction n as [|n IH]; intros ls y out Hn H.
  - destruct ls; [discriminate | cbn in Hn; lia].
  - destruct ls as [|l [|l2 rest]]; [discriminate | |].
    + cbn in H. injection H as <- _. left. now exists [].
    + rewrite drop_pair_cons2 in H.
      destruct (String.eqb l a && String.eqb l2 b) eqn:E.
      * apply andb_prop in E. destruct E as [E1 E2].
        apply String.eqb_eq in E1, E2. subst l l2.
        right. exists rest. split; [reflexivity|].
        destruct (IH rest y out) as [[tl ->]|[tl [-> Hadj]]];
          [cbn in Hn; lia | exact H | |].
        -- apply adjacent_cons, adjacent_head.
        -- now do 2 apply adjacent_cons.
      * injection H as <- _. left. now exists (l2 :: rest).
Qed.

(** Two lines that meet after a deletion met before it, or were held
    apart by deleted pairs. *)
Lemma adjacent_drop_pair (x y : string) (n : nat) :
  forall ls, List.length ls <= n ->
  adjacent x y (drop_pair a b ls) = true ->
  adjacent x y ls = true
  \/ (adjacent x a ls = true /\ adjacent b y ls = true).
Proof.
  induction n as [|n IH]; intros ls Hn H.
  - destruct ls; [discriminate | cbn in Hn; lia].
  - destruct ls as [|l [|l2 rest]]; [discriminate | discriminate |].
    rewrite drop_pair_cons2 in H.
    destruct (String.eqb l a && String.eqb l2 b) eqn:E.
    + destruct (IH rest) as [H1|[H1 H2]]; [cbn in Hn; lia | exact H | |].
      * left. now do 2 apply adjacent_cons.
      * right. split; now do 2 apply adjacent_cons.
    + destruct (drop_pair a b (l2 :: rest)) as [|d out] eqn:D;
        [discriminate|].
      apply adjacent_inv in H. destruct H as [[-> ->]|H].
      * destruct (drop_pair_head (S (List.length rest)) (l2 :: rest) y out)
          as [[tl Htl]|[tl [Htl Hadj]]]; [cbn; lia | exact D | |].
        -- injection Htl as -> _. left. apply adjacent_head.
        -- injection Htl as -> _. right. split.
           ++ apply adjacent_head.
           ++ now apply adjacent_cons.
      * rewrite <- D in H.
        destruct (IH (l2 :: rest)) as [H1|[H1 H2]];
          [cbn in Hn |- *; lia | exact H | |].
        -- left. now apply adjacent_cons.
        -- right. split; now apply adjacent_cons.
Qed.

(** After the deletion no [a] is followed by [b], unless two lines [a]
    followed one another. *)
Lemma drop_pair_clean (n : nat) :
  forall ls, List.length ls <= n ->
  adjacent a a ls = false ->
  adjacent a b (drop_pair a b ls) = false.
Proof.
  induction n as [|n IH]; intros ls Hn Haa.
  - destruct ls; [reflexivity | cbn in Hn; lia].
  - destruct ls as [|l [|l2 rest]]; [reflexivity | reflexivity |].
    rewrite drop_pair_cons2.
    assert (Haa' : adjacent a a (l2 :: rest) = false).
    { cbn [adjacent] in Haa. now apply orb_false_elim in Haa. }
    destruct (String.eqb l a && String.eqb l2 b) eqn:E.
    + apply IH; [cbn in Hn; lia|].
      destruct rest as [|r rest']; [reflexivity|].
      cbn [adjacent] in Haa'. now apply orb_false_elim in Haa'.
    + destruct (drop_pair a b (l2 :: rest)) as [|d out] eqn:D;
        [reflexivity|].
      destruct (adjacent a b (l :: d :: out)) eqn:H; [|reflexivity].
      exfalso. apply adjacent_inv in H. destruct H as [[-> ->]|H].
      * destruct (drop_pair_head (S (List.length rest)) (l2 :: rest) b out)
          as [[tl Htl]|[tl [Htl Hadj]]]; [cbn; lia | exact D | |].
        -- injection Htl as -> _. rewrite !String.eqb_refl in E.
           discriminate.
        -- injection Htl as -> _.
           rewrite adjacent_head in Haa. discriminate.
      * rewrite <- D in H. rewrite IH in H;
          [discriminate | cbn in Hn |- *; lia | exact Haa'].
Qed.

End Adjacency.

(* ================================================================== *)
(** * The nesting of the tags a formatter writes *)
(* ================================================================== *)

Lemma forbidden_second (x y : string) :
  forbidden x y = true -> y = S_OPEN \/ y = P_OPEN.
Proof.
  unfold forbidden. intros H.
  repeat (apply orb_prop in H; destruct H as [H|H]);
    apply andb_prop in H; destruct H as [_ H]; apply String.eqb_eq in H;
    auto.
Qed.

Lemma well_nested_adjacent (x y : string) (ls : list string) :
  forbidden x y = true -> well_nested ls = true -> adjacent x y ls = false.
Proof.
  intros Hf. induction ls as [|l ls IH]; intros H; [reflexivity|].
  destruct ls as [|l2 ls]; [reflexivity|].
  cbn [well_nested] in H. apply andb_prop in H. destruct H as [H1 H2].
  change (adjacent x y (l :: l2 :: ls))
    with ((String.eqb l x && String.eqb l2 y) || adjacent x y (l2 :: ls)).
  rewrite (IH H2), orb_false_r.
  destruct (String.eqb l x) eqn:E1; [|reflexivity].
  destruct (String.eqb l2 y) eqn:E2; [|reflexivity].
  apply String.eqb_eq in E1, E2. subst.
  rewrite Hf in H1. discriminate.
Qed.

Lemma well_nested_app (ls c : list string) :
  well_nested ls = true -> chunk_ok c = true ->
  well_nested (ls ++ c) = true.
Proof.
  intros Hl Hc. unfold chunk_ok in Hc. apply andb_prop in Hc.
  destruct Hc as [Hc Hhead].
  induction ls as [|l ls IH]; [exact Hc|].
  destruct ls as [|l2 ls].
  - destruct c as [|y c]; [reflexivity|].
    change (well_nested ([l] ++ y :: c))
      with (negb (forbidden l y) && well_nested (y :: c)).
    rewrite Hc, andb_true_r.
    destruct (forbidden l y) eqn:F; [|reflexivity].
    apply andb_prop in Hhead. destruct Hhead as [H1 H2].
    destruct (forbidden_second _ _ F) as [->| ->].
    + rewrite String.eqb_refl in H1. discriminate.
    + rewrite String.eqb_refl in H2. discriminate.
  - cbn [well_nested] in Hl. apply andb_prop in Hl. destruct Hl as [H1 H2].
    change (well_nested ((l :: l2 :: ls) ++ c))
      with (negb (forbidden l l2) && well_nested ((l2 :: ls) ++ c)).
    rewrite H1. cbn [andb].
    exact (IH H2).
Qed.

Lemma well_nested_chunks (pre : list string) (chunks : list (list string)) :
  well_nested pre = true ->
  Forall (fun c => chunk_ok c = true) chunks ->
  well_nested (pre ++ concat chunks) = true.
Proof.
  intros Hpre Hc. revert pre Hpre.
  induction Hc as [|c chunks Hc _ IH]; intros pre Hpre.
  - cbn. now rewrite List.app_nil_r.
  - cbn [concat]. rewrite List.app_assoc. apply IH.
    now apply well_nested_app.
Qed.

(* ================================================================== *)
(** * Line 147 on well nested lines *)
(* ================================================================== *)

Lemma postprocess_lines_clean (ls : list string) :
  well_nested ls = true ->
  adjacent S_OPEN S_CLOSE (postprocess_lines ls) = false
  /\ adjacent P_OPEN P_CLOSE (postprocess_lines ls) = false.
Proof.
  intros Hwn. unfold postprocess_lines.
  set (out1 := drop_pair S_OPEN S_CLOSE ls).
  assert (Hss : adjacent S_OPEN S_OPEN ls = false)
    by (apply well_nested_adjacent; [reflexivity | exact Hwn]).
  assert (Hpp : adjacent P_OPEN P_OPEN ls = false)
    by (apply well_nested_adjacent; [reflexivity | exact Hwn]).
  assert (Hcp : adjacent S_CLOSE P_OPEN ls = false)
    by (apply well_nested_adjacent; [reflexivity | exact Hwn]).
  assert (Hsp : adjacent S_OPEN P_OPEN ls = false)
    by (apply well_nested_adjacent; [reflexivity | exact Hwn]).
  assert (H1 : adjacent S_OPEN S_CLOSE out1 = false)
    by (apply (drop_pair_clean _ _ (List.length ls)); [lia | exact Hss]).
  assert (H2 : adjacent P_OPEN P_OPEN out1 = false).
  { destruct (adjacent P_OPEN P_OPEN out1) eqn:E; [|reflexivity].
    apply (adjacent_drop_pair _ _ _ _ (List.length ls)) in E; [|lia].
    destruct E as [E|[_ E]]; congruence. }
  assert (H3 : adjacent S_OPEN P_OPEN out1 = false).
  { destruct (adjacent S_OPEN P_OPEN out1) eqn:E; [|reflexivity].
    apply (adjacent_drop_pair _ _ _ _ (List.length ls)) in E; [|lia].
    destruct E as [E|[E _]]; congruence. }
  split.
  - destruct (adjacent S_OPEN S_CLOSE (drop_pair P_OPEN P_CLOSE out1)) eqn:E;
      [|reflexivity].
    apply (adjacent_drop_pair _ _ _ _ (List.length out1)) in E; [|lia].
    destruct E as [E|[E _]]; congruence.
  - apply (drop_pair_clean _ _ (List.length out1)); [lia | exact H2].
Qed.

Lemma ends_gt_app (p : string) (c : ascii) (s : string) :
  ends_gt (p ++ String c s) = ends_gt (String c s).
Proof.
  induction p as [|x p IH]; [reflexivity|].
  rewrite <- IH.
  change (String x p ++ String c s) with (String x (p ++ String c s)).
  destruct (p ++ String c s) eqn:E.
  - destruct p; discriminate.
  - reflexivity.
Qed.

Lemma ends_gt_free (s : string) (c : ascii) :
  c <> ">"%char -> free ">" s -> ends_gt (String c s) = false.
Proof.
  revert c. induction s as [|x s IH]; intros c Hc Hs.
  - cbn. now apply Ascii.eqb_neq.
  - change (ends_gt (String c (String x s))) with (ends_gt (String x s)).
    unfold free in Hs. cbn [count] in Hs.
    destruct (Ascii.eqb x ">") eqn:E; [discriminate|].
    apply IH; [now apply Ascii.eqb_neq | exact Hs].
Qed.

(** A fit line ends with a tag only if it is that tag. *)
Lemma line_ok_whole_s (l : string) : line_ok l -> whole S_OPEN l.
Proof.
  intros [_ H] p E.
  assert (Hg : ends_gt l = true) by (subst l; apply ends_gt_app).
  destruct (H Hg) as [Hl|[Hl|[Hl|[Hl|Hl]]]]; rewrite Hl in E; clear Hl Hg H;
    unfold P_OPEN, P_CLOSE, S_OPEN, S_CLOSE, GLUE in E;
    destruct p as [|c1 [|c2 p]]; try reflexivity; exfalso;
    try (cbn in E; discriminate E);
    apply (f_equal String.length) in E; rewrite length_app in E;
    cbn in E; lia.
Qed.

Lemma line_ok_whole_p (l : string) : line_ok l -> whole P_OPEN l.
Proof.
  intros [_ H] p E.
  assert (Hg : ends_gt l = true) by (subst l; apply ends_gt_app).
  destruct (H Hg) as [Hl|[Hl|[Hl|[Hl|Hl]]]]; rewrite Hl in E; clear Hl Hg H;
    unfold P_OPEN, P_CLOSE, S_OPEN, S_CLOSE, GLUE in E;
    destruct p as [|c1 [|c2 p]]; try reflexivity; exfalso;
    try (cbn in E; discriminate E);
    apply (f_equal String.length) in E; rewrite length_app in E;
    cbn in E; lia.
Qed.

Lemma Forall_drop_pair (P : string -> Prop) (a b : string)
  (ls : list string) :
  Forall P ls -> Forall P (drop_pair a b ls).
Proof.
  intros H. apply Forall_forall. intros x Hx.
  apply drop_pair_incl in Hx. revert x Hx. now apply Forall_forall.
Qed.

(** Line 147, on the lines of the text. *)
Lemma postprocess_unlines (ls : list string) :
  Forall line_ok ls ->
  postprocess (unlines ls) = unlines (postprocess_lines ls).
Proof.
  intros H. unfold postprocess, postprocess_lines.
  assert (Hf : Forall (free LF) ls)
    by (eapply Forall_impl; [|exact H]; now intros l [Hl _]).
  rewrite (replace_lines S_OPEN S_CLOSE); try easy.
  - rewrite (replace_lines P_OPEN P_CLOSE); try easy.
    + now apply Forall_drop_pair.
    + apply Forall_drop_pair.
      eapply Forall_impl; [|exact H]. exact line_ok_whole_p.
  - eapply Forall_impl; [|exact H]. exact line_ok_whole_s.
Qed.

(** No empty sentence and no empty paragraph is left in a text whose
    lines are fit and well nested. *)
Lemma postprocess_no_empty (ls : list string) :
  Forall line_ok ls -> well_nested ls = true ->
  contains empty_s (postprocess (unlines ls)) = false
  /\ contains empty_p (postprocess (unlines ls)) = false.
Proof.
  intros Hok Hwn. rewrite postprocess_unlines by exact Hok.
  destruct (postprocess_lines_clean ls Hwn) as [Hs Hp].
  assert (Hok' : Forall line_ok (postprocess_lines ls))
    by (unfold postprocess_lines; now do 2 apply Forall_drop_pair).
  assert (Hf : Forall (free LF) (postprocess_lines ls))
    by (eapply Forall_impl; [|exact Hok']; now intros l [Hl _]).
  split.
  - apply (contains_lines S_OPEN S_CLOSE); try easy.
    eapply Forall_impl; [|exact Hok']. exact line_ok_whole_s.
  - apply (contains_lines P_OPEN P_CLOSE); try easy.
    eapply Forall_impl; [|exact Hok']. exact line_ok_whole_p.
Qed.

(* ================================================================== *)
(** * The lines written by [run_udp] *)
(* ================================================================== *)

Lemma split_free (c : ascii) (s x : string) :
  In x (split c s) -> free c x.
Proof.
  revert x. induction s as [|y s IH]; intros x H.
  - destruct H as [<-|[]]. reflexivity.
  - cbn [split] in H. destruct (Ascii.eqb y c) eqn:E.
    + destruct H as [<-|H]; [reflexivity | now apply IH].
    + destruct (split c s) as [|p ps].
      * destruct H as [<-|[]]. unfold free. cbn. now rewrite E.
      * destruct H as [<-|H].
        -- unfold free. cbn [count]. rewrite E.
           apply (IH p). now left.
        -- apply IH. now right.
Qed.

Lemma split_free_other (c d : ascii) (s x : string) :
  free d s -> In x (split c s) -> free d x.
Proof.
  revert x. induction s as [|y s IH]; intros x Hs H.
  - destruct H as [<-|[]]. reflexivity.
  - assert (Hy : (if Ascii.eqb y d then 1 else 0) = 0 /\ free d s)
      by (unfold free in *; cbn [count] in Hs; lia).
    destruct Hy as [Hy Hs'].
    cbn [split] in H. destruct (Ascii.eqb y c).
    + destruct H as [<-|H]; [reflexivity | now apply IH].
    + destruct (split c s) as [|p ps].
      * destruct H as [<-|[]]. unfold free. cbn [count]. now rewrite Hy.
      * destruct H as [<-|H].
        -- unfold free. cbn [count]. rewrite Hy.
           apply (IH p Hs'). now left.
        -- apply (IH x Hs'). now right.
Qed.

Lemma nth_free (c : ascii) (n : nat) (parts : list string) :
  Forall (free c) parts -> free c (nth n parts "").
Proof.
  intros H. destruct (nth_in_or_default n parts "") as [Hin| ->].
  - revert Hin. now apply Forall_forall.
  - reflexivity.
Qed.

Lemma fields_free_lf (line : string) (n : nat) :
  free LF line -> free LF (nth n (split TAB line) "").
Proof.
  intros H. apply nth_free, Forall_forall. intros x Hx.
  exact (split_free_other TAB LF line x H Hx).
Qed.

Lemma fields_free_tab (line : string) (n : nat) :
  free TAB (nth n (split TAB line) "").
Proof.
  apply nth_free, Forall_forall. intros x Hx.
  exact (split_free TAB line x Hx).
Qed.

Lemma udp_emit_lines (suffix line : string) :
  udp_emit suffix line = unlines (udp_lines suffix line).
Proof.
  unfold udp_emit, udp_lines.
  destruct (startswith "#" line || String.eqb (strip line) "");
    [reflexivity|].
  destruct (List.length (split TAB line) <? 10); [reflexivity|].
  destruct (String.eqb (nth 1 (split TAB line) "") PAR_SEP); [reflexivity|].
  unfold token_line.
  destruct (contains "SpaceAfter=No" (nth 9 (split TAB line) ""));
    cbn [unlines fold_right]; now rewrite !app_assoc, ?app_nil_r.
Qed.

Lemma udp_fold (suffix : string) (ls : list string) (acc : string) :
  fold_left (udp_step suffix) ls acc
  = acc ++ unlines (flat_map (udp_lines suffix) ls).
Proof.
  revert acc. induction ls as [|l ls IH]; intros acc; cbn [fold_left flat_map].
  - now rewrite app_nil_r.
  - rewrite IH. unfold udp_step.
    now rewrite unlines_app, udp_emit_lines, app_assoc.
Qed.

Lemma udp_vertical_unlines (result suffix : string) :
  udp_vertical result suffix = unlines (udp_vertical_lines result suffix).
Proof.
  unfold udp_vertical, udp_vertical_lines.
  rewrite udp_fold, !unlines_app. now rewrite app_assoc.
Qed.

Lemma tag_line_ok (l : string) :
  l = P_OPEN \/ l = P_CLOSE \/ l = S_OPEN \/ l = S_CLOSE \/ l = GLUE ->
  line_ok l.
Proof.
  intros H. split; [|now intros _].
  destruct H as [->|[->|[->|[->| ->]]]]; reflexivity.
Qed.

(** A token line closed by a plain landing-page reference. *)
Lemma token_line_ok (text lemma upos url : string) :
  free LF text -> free LF lemma -> free LF upos -> plain url ->
  line_ok (text ++ tab ++ lemma ++ tab ++ upos ++ tab ++ url).
Proof.
  intros Ht Hl Hu [Hlf Hgt]. split.
  - unfold free in *. rewrite !count_app, Ht, Hl, Hu, Hlf. reflexivity.
  - intros H. exfalso.
    replace (text ++ tab ++ lemma ++ tab ++ upos ++ tab ++ url)
      with ((text ++ tab ++ lemma ++ tab ++ upos) ++ String TAB url) in H
      by now rewrite !app_assoc.
    rewrite ends_gt_app, ends_gt_free in H; [discriminate | | exact Hgt].
    discriminate.
Qed.

Ltac tag_lines :=
  repeat (apply Forall_cons;
          [apply tag_line_ok;
           first [ now left | now (right; left) | now (right; right; left)
                 | now (right; right; right; left)
                 | now (right; right; right; right) ]|]);
  try apply Forall_nil.

Lemma udp_lines_ok (url line : string) :
  plain url -> free LF line ->
  Forall line_ok (udp_lines (tab ++ url) line).
Proof.
  intros Hu Hl. unfold udp_lines.
  destruct (startswith "#" line || String.eqb (strip line) "");
    [constructor|].
  destruct (List.length (split TAB line) <? 10); [constructor|].
  destruct (String.eqb (nth 1 (split TAB line) "") PAR_SEP).
  - tag_lines.
  - constructor.
    + apply token_line_ok; auto using fields_free_lf.
    + destruct (contains "SpaceAfter=No" (nth 9 (split TAB line) ""));
        tag_lines.
Qed.

Lemma forbidden_glue (x : string) : forbidden x GLUE = false.
Proof. unfold forbidden. cbn. now rewrite !andb_false_r. Qed.

Lemma has_tab_not_tag (x rest : string) :
  String.eqb (x ++ tab ++ rest) S_OPEN = false
  /\ String.eqb (x ++ tab ++ rest) P_OPEN = false.
Proof.
  split; apply String.eqb_neq; intros E;
    apply (f_equal (count TAB)) in E; rewrite !count_app in E;
    cbn in E; lia.
Qed.

Lemma udp_lines_chunk (suffix line : string) :
  chunk_ok (udp_lines suffix line) = true.
Proof.
  unfold udp_lines.
  destruct (startswith "#" line || String.eqb (strip line) "");
    [reflexivity|].
  destruct (List.length (split TAB line) <? 10); [reflexivity|].
  destruct (String.eqb (nth 1 (split TAB line) "") PAR_SEP); [reflexivity|].
  unfold chunk_ok.
  destruct (has_tab_not_tag (nth 1 (split TAB line) "")
              (nth 2 (split TAB line) "" ++ tab
               ++ nth 3 (split TAB line) "" ++ suffix)) as [H1 H2].
  rewrite H1, H2.
  destruct (contains "SpaceAfter=No" (nth 9 (split TAB line) ""));
    cbn [well_nested]; now rewrite ?forbidden_glue.
Qed.

Lemma udp_vertical_lines_ok (result url : string) :
  plain url -> Forall line_ok (udp_vertical_lines result (tab ++ url)).
Proof.
  intros Hu. unfold udp_vertical_lines.
  repeat (apply Forall_app; split).
  - tag_lines.
  - apply Forall_flat_map, Forall_forall. intros line Hline.
    apply udp_lines_ok; [exact Hu|].
    exact (split_free LF result line Hline).
  - tag_lines.
Qed.

Lemma udp_vertical_lines_nested (result suffix : string) :
  well_nested (udp_vertical_lines result suffix) = true.
Proof.
  unfold udp_vertical_lines. rewrite List.app_assoc.
  apply well_nested_app; [|reflexivity].
  rewrite flat_map_concat_map. apply well_nested_chunks; [reflexivity|].
  apply Forall_map, Forall_forall. intros line _. apply udp_lines_chunk.
Qed.

(* ================================================================== *)
(** * The example of the specification *)
(* ================================================================== *)

Example hello_segment :
  strip (segment Sample.hello_elements) = Sample.hello_text.
Proof. reflexivity. Qed.

Example hello_run :
  process_tei Sample.hello_env Sample.tei_url Sample.corpora Sample.udp_cfg
    start
  = (Return true,
     {| file := chapter_open Sample.corpora Sample.html_url
                ++ Sample.hello_written ++ chapter_close;
        time := {| download := 0 + (Sample.seconds 1 - Sample.seconds 0);
                   nlp := 0 + (Sample.seconds 3 - Sample.seconds 2);
                   total := 0; tokens := 0 + 15 |};
        trace := [Get Sample.tei_url;
                  Post "https://udpipe.example.org/process" "english-ewt"
                       Sample.hello_text];
        requests := 2; ticks := 5 |}).
Proof. vm_compute. reflexivity. Qed.

(** C1, as the program runs it.  The document with the two paragraphs
    "Hello world." and "Foo.", annotated by a tagging service that returns
    the tokens (Hello,hello,INTJ), (world,world,NOUN), (.,.,PUNCT),
    the sentinel of the text, (Foo,foo,NOUN), (.,.,PUNCT), with
    SpaceAfter=No on the final punctuation of each sentence, is processed
    at the first attempt and its chapter body is the text of the
    specification with a glue line after each final punctuation mark:
    two paragraphs of one sentence each. *)
Theorem example_chapter_body :
  let run := process_tei Sample.hello_env Sample.tei_url Sample.corpora
               Sample.udp_cfg start in
  fst run = Return true
  /\ file (snd run)
     = chapter_open Sample.corpora Sample.html_url
       ++ Sample.hello_written ++ chapter_close
  /\ postprocess (udp_vertical Sample.hello_payload Sample.suffix)
     = Sample.hello_written.
Proof. vm_compute. repeat split. Qed.

(** C1, as stated, fails: the body written for the example is not the one
    the specification gives, whether the answer of the service holds the
    sentinel of the text (glue lines are written) or only the five tokens
    (one paragraph is written). *)
Lemma example_chapter_body_not_as_stated :
  file (snd (process_tei Sample.hello_env Sample.tei_url Sample.corpora
               Sample.udp_cfg start))
  <> chapter_open Sample.corpora Sample.html_url
     ++ Sample.hello_expected ++ chapter_close
  /\ file (snd (process_tei Sample.hello_env_bare Sample.tei_url
                  Sample.corpora Sample.udp_cfg start))
     <> chapter_open Sample.corpora Sample.html_url
        ++ Sample.hello_expected ++ chapter_close
  /\ postprocess (udp_vertical Sample.hello_payload Sample.suffix)
     <> Sample.hello_expected
  /\ postprocess (udp_vertical Sample.hello_payload_bare Sample.suffix)
     = Sample.hello_written_bare.
Proof.
  repeat split; try (apply String.eqb_neq; vm_compute; reflexivity).
Qed.

(** C3 on the code: a blank line of the payload adds nothing to the
    vertical, so two sentences of one paragraph are written as a single
    sentence element, without the [</s>], [<s>] pair the claim asks for
    between them. *)
Theorem udp_blank_line_ignored :
  (forall suffix, udp_emit suffix "" = "")
  /\ udp_vertical Sample2.two_sentences Sample.suffix
     = Sample2.two_sentences_written
  /\ Sample2.two_sentences_written <> Sample2.two_sentences_expected
  /\ contains sent_break (udp_vertical Sample2.two_sentences Sample.suffix)
     = false.
Proof.
  repeat split; try (apply String.eqb_neq; vm_compute; reflexivity).
Qed.

(* ================================================================== *)
(** * No empty sentence, no empty paragraph *)
(* ================================================================== *)

(** Line 147 on what [run_udp] returns. *)
Lemma udp_no_empty (result url : string) :
  plain url ->
  contains empty_s (postprocess (udp_vertical result (tab ++ url))) = false
  /\ contains empty_p (postprocess (udp_vertical result (tab ++ url)))
     = false.
Proof.
  intros Hu. rewrite udp_vertical_unlines.
  apply postprocess_no_empty.
  - now apply udp_vertical_lines_ok.
  - apply udp_vertical_lines_nested.
Qed.

(** Sentinels and nothing else leave an empty body. *)
Example only_sentinels :
  postprocess
    (udp_vertical
       (Sample.payload [Sample.record PAR_SEP PAR_SEP "X" "_";
                        Sample.record PAR_SEP PAR_SEP "X" "_"])
       Sample.suffix) = "".
Proof. reflexivity. Qed.

(* ================================================================== *)
(** * The text handed to the back end *)
(* ================================================================== *)










(** C8 on the code.  A paragraph, notes that stand outside any paragraph
    and outside the body, and a second paragraph: the block changes at
    two positions, and the text has one sentinel.  The loop marks the
    change from the paragraph to the notes and misses the change from
    the notes to the next paragraph, because a span without block leaves
    [last_p] at [None], which the next iteration takes for the state
    before the first span. *)
Theorem segmenter_misses_block_change :
  map snd (spans Sample9.with_notes)
  = [Some Sample.p1; None; Some Sample.p2]
  /\ enclosing_block_changes (map snd (spans Sample9.with_notes)) = 2
  /\ segment Sample9.with_notes = "One  PaRaSeP Notes Text. "
  /\ occurrences PAR_SEP (segment Sample9.with_notes) = 1
  /\ segmenter_text (spans Sample9.with_notes)
     = "One  PaRaSeP Notes  PaRaSeP Text. ".
Proof. vm_compute. repeat split. Qed.

(* ================================================================== *)
(** * What an attempt writes *)
(* ================================================================== *)

Ltac run_step :=
  match goal with
  | |- context [match ?x with _ => _ end] =>
      match type of x with
      | option _ => destruct x eqn:?
      | bool => destruct x eqn:?
      end
  end.

(** An attempt that returns has written the opening marker of the
    chapter, the post-processed body and the closing marker, and returns
    [True]; an attempt that raises has written nothing, or the opening
    marker alone. *)
Lemma process_tei_file (env : environment) (tei_url : string)
  (corpora : corpus) (cfg : config) (w : world) :
  let html_url := replace ".xml" ".html" tei_url in
  let r := process_tei env tei_url corpora cfg w in
  match fst r with
  | Return b =>
      b = true
      /\ exists processed,
           file (snd r)
           = ((file w ++ chapter_open corpora html_url)
              ++ postprocess processed) ++ chapter_close
  | Raise _ =>
      file (snd r) = file w
      \/ file (snd r) = file w ++ chapter_open corpora html_url
  end.
Proof.
  unfold process_tei, run_udp, run_spacy, model_of, requests_get,
    requests_post, add_stats, bind, item, or_raise, ret, raise, log, write,
    perf_counter, next_exchange, set_time, get_time.
  cbn -[replace postprocess chapter_open chapter_close udp_vertical
        spacy_vertical strip segment clean_tei count PrimFloat.add PrimFloat.sub].
  repeat (run_step;
          cbn -[replace postprocess chapter_open chapter_close udp_vertical
                spacy_vertical strip segment clean_tei count PrimFloat.add PrimFloat.sub]);
    try (now left); try (now right);
    try (split; [reflexivity | eexists; reflexivity]).
Qed.

(** An attempt fetches the document once and never pauses. *)
Lemma process_tei_events (env : environment) (tei_url : string)
  (corpora : corpus) (cfg : config) (w : world) :
  let r := process_tei env tei_url corpora cfg w in
  gets (snd r) = (gets w ++ [Get tei_url])%list
  /\ sleeps (snd r) = sleeps w.
Proof.
  unfold gets, sleeps.
  unfold process_tei, run_udp, run_spacy, model_of, requests_get,
    requests_post, add_stats, bind, item, or_raise, ret, raise, log, write,
    perf_counter, next_exchange, set_time, get_time.
  cbn -[replace postprocess chapter_open chapter_close udp_vertical
        spacy_vertical strip segment clean_tei count PrimFloat.add PrimFloat.sub filter].
  repeat (run_step;
          cbn -[replace postprocess chapter_open chapter_close udp_vertical
                spacy_vertical strip segment clean_tei count PrimFloat.add PrimFloat.sub
                filter]);
    rewrite ?filter_app; cbn [filter is_get is_sleep];
    rewrite ?List.app_nil_r; split; reflexivity.
Qed.

(* ================================================================== *)
(** * The retry loop *)
(* ================================================================== *)

Lemma attempts_S (k : nat) (body : M bool) (w : world) :
  attempts (S k) body w
  = if succeeds body w then (Return tt, snd (body w))
    else attempts k body (failed_round body w).
Proof.
  unfold succeeds, failed_round. cbn [attempts].
  unfold bind, try_except, ret, print, sleep, log.
  destruct (body w) as [[[|]|e] w']; reflexivity.
Qed.

Lemma raises_not_succeeds (body : M bool) (w : world) :
  raises body w = true -> succeeds body w = false.
Proof. unfold raises, succeeds. now destruct (fst (body w)). Qed.

Lemma attempts_failures (n k : nat) (body : M bool) :
  forall w,
  (forall j, j < n -> raises body (after_failures j body w) = true) ->
  attempts (n + k) body w = attempts k body (after_failures n body w).
Proof.
  induction n as [|n IH]; intros w H; [reflexivity|].
  cbn [Nat.add after_failures]. rewrite attempts_S.
  rewrite (raises_not_succeeds body w) by (apply (H 0); lia).
  apply IH. intros j Hj. apply (H (S j)). lia.
Qed.

Lemma attempts_success (k : nat) (body : M bool) (w : world) :
  succeeds body w = true ->
  attempts (S k) body w = (Return tt, snd (body w)).
Proof. intros H. now rewrite attempts_S, H. Qed.

Lemma failed_round_raise (body : M bool) (w : world) :
  raises body w = true ->
  exists e,
    fst (body w) = Raise e
    /\ failed_round body w
       = {| file := file (snd (body w)); time := time (snd (body w));
            trace := (trace (snd (body w)) ++ [Print e; Sleep 5])%list;
            requests := requests (snd (body w));
            ticks := ticks (snd (body w)) |}.
Proof.
  unfold raises, failed_round.
  destruct (body w) as [[b|e] w']; [discriminate|]. intros _.
  exists e. split; [reflexivity|].
  unfold bind, print, sleep, log. cbn. now rewrite <- List.app_assoc.
Qed.

Section Rounds.

Variable env : environment.
Variable tei_url : string.
Variable corpora : corpus.
Variable cfg : config.

Local Abbreviation body := (process_tei env tei_url corpora cfg).
Local Abbreviation html_url := (replace ".xml" ".html" tei_url).

Lemma failed_round_events (w : world) :
  raises body w = true ->
  gets (failed_round body w) = (gets w ++ [Get tei_url])%list
  /\ sleeps (failed_round body w) = (sleeps w ++ [Sleep 5])%list
  /\ (file (failed_round body w) = file w
      \/ file (failed_round body w) = file w ++ chapter_open corpora html_url).
Proof.
  intros H. destruct (failed_round_raise body w H) as [e [He ->]].
  destruct (process_tei_events env tei_url corpora cfg w) as [Hg Hs].
  pose proof (process_tei_file env tei_url corpora cfg w) as Hf.
  cbv zeta in Hf, Hg, Hs. rewrite He in Hf.
  unfold gets, sleeps in *. cbn [trace file].
  rewrite !filter_app, Hg, Hs. cbn [filter is_get is_sleep].
  now rewrite List.app_nil_r.
Qed.

(** After [n] failed rounds: [n] fetches, [n] pauses of 5 seconds, and
    in the file at most [n] opening markers and nothing else. *)
Lemma after_failures_events (n : nat) :
  forall w,
  (forall j, j < n -> raises body (after_failures j body w) = true) ->
  gets (after_failures n body w) = (gets w ++ repeat (Get tei_url) n)%list
  /\ sleeps (after_failures n body w) = (sleeps w ++ repeat (Sleep 5) n)%list
  /\ exists k, k <= n
       /\ file (after_failures n body w)
          = file w ++ copies k (chapter_open corpora html_url).
Proof.
  induction n as [|n IH]; intros w H.
  - cbn. rewrite !List.app_nil_r. repeat split.
    exists 0. split; [lia | now rewrite app_nil_r].
  - cbn [after_failures].
    destruct (failed_round_events w (H 0 ltac:(lia))) as [Hg [Hs Hf]].
    destruct (IH (failed_round body w)) as [Hg' [Hs' [k [Hk Hf']]]].
    { intros j Hj. apply (H (S j)). lia. }
    rewrite Hg', Hs', Hg, Hs, Hf'. cbn [repeat].
    rewrite <- !List.app_assoc. repeat split.
    destruct Hf as [-> | ->].
    + exists k. split; [lia | reflexivity].
    + exists (S k). split; [lia|]. cbn [copies]. now rewrite !app_assoc.
Qed.

End Rounds.

(** C2.  When the attempts on a document raise [N] times and the next one
    succeeds: for [N] below 10 the loop ends with the successful attempt,
    after [N] pauses of 5 seconds and [N + 1] fetches, and the chapter is
    in the file; for [N] from 10 on the loop ends after exactly 10
    attempts, each followed by a pause of 5 seconds, the file has
    received nothing for the document but opening markers left by the
    failed attempts, no exception leaves the loop, and the run goes on
    with the next document. *)
Theorem retry_bound (env : environment) (tei_url : string)
  (corpora : corpus) (cfg : config) (N : nat) (w : world) :
  let body := process_tei env tei_url corpora cfg in
  let html_url := replace ".xml" ".html" tei_url in
  (forall k, k < N -> raises body (after_failures k body w) = true) ->
  succeeds body (after_failures N body w) = true ->
  (N < 10 ->
   let done := snd (body (after_failures N body w)) in
   fetch env tei_url corpora cfg w = (Return tt, done)
   /\ gets done = (gets w ++ repeat (Get tei_url) (N + 1))%list
   /\ sleeps done = (sleeps w ++ repeat (Sleep 5) N)%list
   /\ exists processed,
        file done
        = ((file (after_failures N body w) ++ chapter_open corpora html_url)
           ++ postprocess processed) ++ chapter_close)
  /\ (10 <= N ->
      let skipped := after_failures 10 body w in
      fetch env tei_url corpora cfg w = (Return tt, skipped)
      /\ gets skipped = (gets w ++ repeat (Get tei_url) 10)%list
      /\ sleeps skipped = (sleeps w ++ repeat (Sleep 5) 10)%list
      /\ (exists k, k <= 10
            /\ file skipped = file w ++ copies k (chapter_open corpora html_url))
      /\ forall title rest,
           chapters env ((tei_url, title) :: rest) corpora cfg w
           = chapters env rest corpora cfg skipped).
Proof.
  intros body html_url Hfail Hok. split; intros HN.
  - intros done.
    assert (Hrun : fetch env tei_url corpora cfg w = (Return tt, done)).
    { unfold fetch. replace 10 with (N + S (9 - N)) by lia.
      fold body. rewrite attempts_failures by exact Hfail.
      now apply attempts_success. }
    destruct (after_failures_events env tei_url corpora cfg N w Hfail)
      as [Hg [Hs _]].
    destruct (process_tei_events env tei_url corpora cfg
                (after_failures N body w)) as [Hg' Hs'].
    pose proof (process_tei_file env tei_url corpora cfg
                  (after_failures N body w)) as Hf.
    cbv zeta in Hf, Hg', Hs'. fold body in Hf, Hg', Hs', Hg, Hs.
    unfold succeeds in Hok.
    destruct (fst (body (after_failures N body w))) as [b|e];
      [|discriminate].
    destruct Hf as [_ Hf].
    repeat split; [exact Hrun | | | exact Hf].
    + unfold done. rewrite Hg', Hg, <- List.app_assoc.
      f_equal. now rewrite repeat_app.
    + unfold done. now rewrite Hs', Hs.
  - intros skipped.
    assert (Hfail10 : forall j, j < 10 ->
              raises body (after_failures j body w) = true)
      by (intros j Hj; apply Hfail; lia).
    assert (Hrun : fetch env tei_url corpora cfg w = (Return tt, skipped)).
    { unfold fetch. change 10 with (10 + 0). fold body.
      now rewrite attempts_failures by exact Hfail10. }
    destruct (after_failures_events env tei_url corpora cfg 10 w Hfail10)
      as [Hg [Hs Hf]].
    repeat split; [exact Hrun | exact Hg | exact Hs | exact Hf |].
    intros title rest. cbn [chapters]. unfold bind at 1.
    now rewrite Hrun.
Qed.

Lemma retry_bound_witness :
  let body := process_tei (Sample4.flaky 2) Sample.tei_url Sample.corpora
                Sample.udp_cfg in
  (forall k, k < 2 -> raises body (after_failures k body start) = true)
  /\ succeeds body (after_failures 2 body start) = true
  /\ fetch (Sample4.flaky 2) Sample.tei_url Sample.corpora Sample.udp_cfg
       start
     = (Return tt, snd (body (after_failures 2 body start)))
  /\ sleeps (snd (body (after_failures 2 body start)))
     = (sleeps start ++ repeat (Sleep 5) 2)%list.
Proof.
  intros body.
  assert (Hfail : forall k, k < 2 ->
            raises body (after_failures k body start) = true).
  { intros k Hk. destruct k as [|[|k]];
      [vm_compute; reflexivity | vm_compute; reflexivity | lia]. }
  assert (Hok : succeeds body (after_failures 2 body start) = true)
    by (vm_compute; reflexivity).
  destruct (retry_bound (Sample4.flaky 2) Sample.tei_url Sample.corpora
              Sample.udp_cfg 2 start Hfail Hok) as [Hlt _].
  destruct (Hlt ltac:(lia)) as [Hrun [_ [Hs _]]].
  split; [exact Hfail|]. split; [exact Hok|].
  split; [exact Hrun | exact Hs].
Defined.

(** Ten failures in a row: the document is skipped. *)
Example ten_failures :
  fetch (Sample4.flaky 10) Sample.tei_url Sample.corpora Sample.udp_cfg start
  = (Return tt,
     {| file := ""; time := time start;
        trace := concat (repeat [Get Sample.tei_url; Print RequestException;
                                 Sleep 5] 10);
        requests := 10; ticks := 10 |}).
Proof. vm_compute. reflexivity. Qed.

(* ================================================================== *)
(** * What a retried attempt leaves in the file *)
(* ================================================================== *)

(** C5 on the code.  The tagging service fails at the first attempt and
    answers at the second: the first attempt raises after it has written
    the opening marker of the chapter, so the file is not as it was
    before the attempt, and after the retry the document has two opening
    markers for one closing marker. *)
Theorem retried_attempt_leaves_marker :
  let body := process_tei Sample4.flaky_service Sample.tei_url
                Sample.corpora Sample.udp_cfg in
  let opening := chapter_open Sample.corpora Sample.html_url in
  fst (body start) = Raise RequestException
  /\ file start = ""
  /\ file (snd (body start)) = opening
  /\ fetch Sample4.flaky_service Sample.tei_url Sample.corpora
       Sample.udp_cfg start
     = (Return tt, snd (body (failed_round body start)))
  /\ file (snd (fetch Sample4.flaky_service Sample.tei_url Sample.corpora
                  Sample.udp_cfg start))
     = opening ++ opening ++ Sample.hello_written ++ chapter_close.
Proof. vm_compute. repeat split. Qed.

(* ================================================================== *)
(** * The statistics of a run *)
(* ================================================================== *)

Lemma count_unlines (ls : list string) :
  Forall (free LF) ls -> count LF (unlines ls) = List.length ls.
Proof.
  induction 1 as [|l ls Hl _ IH]; [reflexivity|].
  rewrite unlines_cons, !count_app, Hl, IH. reflexivity.
Qed.

(** An attempt that returns adds to the statistics the number of line
    feeds of the body it writes, the time of the fetch and the time of
    the annotation, each by one addition of floats, and leaves the total
    alone; an attempt that raises leaves them as they were. *)
Lemma process_tei_stats (env : environment) (tei_url : string)
  (corpora : corpus) (cfg : config) (w : world) :
  let r := process_tei env tei_url corpora cfg w in
  match fst r with
  | Return _ =>
      exists processed,
        file (snd r)
        = ((file w ++ chapter_open corpora (replace ".xml" ".html" tei_url))
           ++ postprocess processed) ++ chapter_close
        /\ tokens (time (snd r))
           = tokens (time w) + count LF (postprocess processed)
        /\ download (time (snd r))
           = (download (time w)
              + (clock env (S (ticks w)) - clock env (ticks w)))%float
        /\ nlp (time (snd r))
           = (nlp (time w)
              + (clock env (S (S (S (ticks w))))
                 - clock env (S (S (ticks w)))))%float
        /\ total (time (snd r)) = total (time w)
  | Raise _ => time (snd r) = time w
  end.
Proof.
  unfold process_tei, run_udp, run_spacy, model_of, requests_get,
    requests_post, add_stats, bind, item, or_raise, ret, raise, log, write,
    perf_counter, next_exchange, set_time, get_time.
  cbn -[replace postprocess chapter_open chapter_close udp_vertical
        spacy_vertical strip segment clean_tei count PrimFloat.add PrimFloat.sub].
  repeat (run_step;
          cbn -[replace postprocess chapter_open chapter_close udp_vertical
                spacy_vertical strip segment clean_tei count PrimFloat.add PrimFloat.sub]);
    try reflexivity;
    eexists; repeat split; reflexivity.
Qed.

(** C10 on the code.  The document of the example has 5 token lines; the
    attempt adds 15 to the token statistic, the number of all the lines
    of the body, tags and glue marks among them. *)
Theorem token_statistic_counts_lines :
  let w := snd (process_tei Sample.hello_env Sample.tei_url Sample.corpora
                  Sample.udp_cfg start) in
  tokens (time start) = 0
  /\ tokens (time w) = 15
  /\ count LF Sample.hello_written = 15
  /\ List.length (token_lines Sample.hello_written) = 5.
Proof. vm_compute. repeat split. Qed.

(* ================================================================== *)
(** * Loading the language model *)
(* ================================================================== *)

(** C9, as the program runs it.  Every call of [run_spacy] for a language
    that has a model loads that model, whatever the run has loaded
    before: one more load is recorded at each call. *)
Theorem run_spacy_loads (env : environment) (text lang : string)
  (cfg : backend_cfg) (suffix model : string)
  (ms : list (string * string)) (w : world) :
  models cfg = Some ms -> lookup lang ms = Some model ->
  loads (snd (run_spacy env text lang cfg suffix w))
  = (loads w ++ [Load model])%list.
Proof.
  intros Hm Hl. unfold loads, run_spacy, model_of, bind, item, or_raise,
    ret, raise, log.
  rewrite Hm, Hl. cbn -[spacy_vertical filter].
  repeat (run_step; cbn -[spacy_vertical filter]);
    now rewrite filter_app.
Qed.

Lemma run_spacy_loads_witness :
  loads (snd (run_spacy (Sample5.in_process Sample.hello_elements
                           Sample5.hello_doc)
                Sample.hello_text "en"
                {| models := Some [("en", "en_core_web_sm")];
                   apiUrl := None |}
                Sample.suffix
                (snd (run_spacy (Sample5.in_process Sample.hello_elements
                                   Sample5.hello_doc)
                        Sample.hello_text "en"
                        {| models := Some [("en", "en_core_web_sm")];
                           apiUrl := None |}
                        Sample.suffix start))))
  = [Load "en_core_web_sm"; Load "en_core_web_sm"].
Proof.
  rewrite (run_spacy_loads _ _ "en" _ _ "en_core_web_sm"
             [("en", "en_core_web_sm")]); [|reflexivity | reflexivity].
  rewrite (run_spacy_loads _ _ "en" _ _ "en_core_web_sm"
             [("en", "en_core_web_sm")]); [|reflexivity | reflexivity].
  reflexivity.
Defined.

(** C9, as stated, fails: in a run over two documents of one language the
    model is loaded twice. *)
Lemma model_loaded_for_each_document :
  fst (create_vertical
         (Sample5.in_process Sample.hello_elements Sample5.hello_doc)
         Sample5.two_documents Sample.spacy_cfg start) = Return true
  /\ loads (snd (create_vertical
                   (Sample5.in_process Sample.hello_elements
                      Sample5.hello_doc)
                   Sample5.two_documents Sample.spacy_cfg start))
     = [Load "en_core_web_sm"; Load "en_core_web_sm"].
Proof. vm_compute. split; reflexivity. Qed.

(** A span outside any paragraph and body has no block: the change to
    the first paragraph after it inserts no sentinel. *)
Example span_without_block :
  map snd (spans Sample5.back_matter) = [None; Some Sample.p1]
  /\ segment Sample5.back_matter = "Notes Text. "
  /\ occurrences PAR_SEP (segment Sample5.back_matter) = 0
  /\ enclosing_block_changes (map snd (spans Sample5.back_matter)) = 1.
Proof. repeat split. Qed.

(* ================================================================== *)
(** * Glue marks *)
(* ================================================================== *)

Lemma udp_emit_token (suffix line : string) :
  udp_is_token line = true ->
  udp_emit suffix line
  = udp_token_line suffix line
    ++ (if udp_no_space_after line then glue else "").
Proof.
  unfold udp_is_token, udp_emit, udp_token_line, udp_no_space_after.
  intros H. apply andb_prop in H. destruct H as [H H3].
  apply andb_prop in H. destruct H as [H1 H2].
  apply negb_true_iff in H1, H2, H3. now rewrite H1, H2, H3.
Qed.

Lemma udp_emit_sentinel (suffix line : string) :
  udp_is_sentinel line = true -> udp_emit suffix line = par_break.
Proof.
  unfold udp_is_sentinel, udp_emit.
  intros H. apply andb_prop in H. destruct H as [H H3].
  apply andb_prop in H. destruct H as [H1 H2].
  apply negb_true_iff in H1, H2. now rewrite H1, H2, H3.
Qed.

Lemma udp_fold_app (suffix : string) (a b : list string) (acc : string) :
  fold_left (udp_step suffix) (a ++ b) acc
  = fold_left (udp_step suffix) b (fold_left (udp_step suffix) a acc).
Proof. apply fold_left_app. Qed.

Lemma udp_fold_silent (suffix : string) (mid : list string) (acc : string) :
  Forall (fun m => udp_emit suffix m = "") mid ->
  fold_left (udp_step suffix) mid acc = acc.
Proof.
  intros H. revert acc. induction H as [|m mid Hm _ IH]; intros acc;
    [reflexivity|].
  cbn [fold_left]. unfold udp_step at 2. rewrite Hm, app_nil_r. apply IH.
Qed.

Lemma udp_fold_grows (suffix : string) (ls : list string) (acc : string) :
  exists more, fold_left (udp_step suffix) ls acc = acc ++ more.
Proof. eexists. apply udp_fold. Qed.

Lemma spacy_step_space (suffix : string) (st : spacy_state) (t : Token) :
  tok_is_space t = true -> spacy_step suffix st t = st.
Proof. intros H. unfold spacy_step. now rewrite H. Qed.

Lemma spacy_fold_spaces (suffix : string) (mid : list Token)
  (st : spacy_state) :
  Forall (fun m => tok_is_space m = true) mid ->
  fold_left (spacy_step suffix) mid st = st.
Proof.
  intros H. revert st. induction H as [|m mid Hm _ IH]; intros st;
    [reflexivity|].
  cbn [fold_left]. rewrite spacy_step_space by exact Hm. apply IH.
Qed.

(** What one token adds to the vertical, and the state it leaves. *)
Lemma spacy_step_token (suffix : string) (st : spacy_state) (t : Token) :
  tok_is_space t = false ->
  spacy_step suffix st t
  = {| sp_vertical :=
         ((sp_vertical st
           ++ (if negb (match sp_sent st with
                        | Some s => s
                        | None => sent t
                        end =? sent t)
               then sent_break else ""))
          ++ (if negb (match_space (sp_text st)) && is_punct t
              then glue else ""))
         ++ (if String.eqb (tok_text t) PAR_SEP then par_break
             else spacy_line suffix t);
       sp_sent := Some (sent t);
       sp_text := drop (String.length (tok_text t)) (lstrip (sp_text st)) |}.
Proof. intros H. unfold spacy_step. now rewrite H. Qed.

Lemma spacy_fold_grows (suffix : string) (ts : list Token) :
  forall st, exists more,
    sp_vertical (fold_left (spacy_step suffix) ts st)
    = sp_vertical st ++ more.
Proof.
  induction ts as [|t ts IH]; intros st.
  - exists "". cbn. now rewrite app_nil_r.
  - cbn [fold_left]. destruct (IH (spacy_step suffix st t)) as [more ->].
    destruct (tok_is_space t) eqn:E.
    + rewrite spacy_step_space by exact E. now exists more.
    + rewrite spacy_step_token by exact E. cbn [sp_vertical].
      eexists. rewrite !app_assoc. reflexivity.
Qed.

(** The sentence of the last token written, once a token was written. *)
Lemma spacy_after_token (text suffix : string) (pre : list Token)
  (t : Token) :
  spacy_is_token t = true ->
  exists before,
    sp_vertical (spacy_after text suffix (pre ++ [t]))
    = before ++ spacy_line suffix t
    /\ sp_sent (spacy_after text suffix (pre ++ [t])) = Some (sent t).
Proof.
  unfold spacy_is_token, spacy_after. intros H.
  apply andb_prop in H. destruct H as [H1 H2].
  apply negb_true_iff in H1, H2.
  rewrite fold_left_app. cbn [fold_left].
  rewrite spacy_step_token by exact H1. rewrite H2. cbn [sp_vertical sp_sent].
  eexists. split; reflexivity.
Qed.

(** C4, as the program places the glue marks.  Between the lines of two
    tokens that follow one another, [run_udp] writes one glue line when
    the first token carries SpaceAfter=No and nothing otherwise;
    [run_spacy] writes, after a sentence break if the sentence changes,
    one glue line when the text left after the first token does not
    begin with white space and the second token is punctuation, and
    nothing otherwise. *)
Theorem glue_placement :
  (forall result suffix pre r1 mid r2 post,
     split LF result = (pre ++ r1 :: mid ++ r2 :: post)%list ->
     udp_is_token r1 = true -> udp_is_token r2 = true ->
     Forall (fun m => udp_emit suffix m = "") mid ->
     exists before after,
       udp_vertical result suffix
       = before ++ udp_token_line suffix r1
         ++ (if udp_no_space_after r1 then glue else "")
         ++ udp_token_line suffix r2 ++ after)
  /\ (forall doc text suffix pre t1 mid t2 post,
        doc_tokens doc = (pre ++ t1 :: mid ++ t2 :: post)%list ->
        spacy_is_token t1 = true -> spacy_is_token t2 = true ->
        Forall (fun m => tok_is_space m = true) mid ->
        exists before after,
          spacy_vertical doc text suffix
          = before ++ spacy_line suffix t1
            ++ (if negb (sent t1 =? sent t2) then sent_break else "")
            ++ (if negb (match_space
                           (sp_text (spacy_after text suffix (pre ++ [t1]))))
                   && is_punct t2
                then glue else "")
            ++ spacy_line suffix t2 ++ after).
Proof.
  split.
  - intros result suffix pre r1 mid r2 post Hs H1 H2 Hmid.
    unfold udp_vertical. rewrite Hs.
    rewrite udp_fold_app. cbn [fold_left].
    rewrite udp_fold_app, (udp_fold_silent suffix mid) by exact Hmid.
    cbn [fold_left].
    destruct (udp_fold_grows suffix post
                (udp_step suffix
                   (udp_step suffix
                      (fold_left (udp_step suffix) pre open_par) r1) r2))
      as [more ->].
    unfold udp_step.
    rewrite (udp_emit_token suffix r1 H1), (udp_emit_token suffix r2 H2).
    exists (fold_left (udp_step suffix) pre open_par).
    exists ((if udp_no_space_after r2 then glue else "")
            ++ more ++ close_par).
    unfold udp_step. now rewrite !app_assoc.
  - intros doc text suffix pre t1 mid t2 post Hs H1 H2 Hmid.
    unfold spacy_vertical. rewrite Hs.
    change (pre ++ t1 :: mid ++ t2 :: post)%list
      with (pre ++ [t1] ++ mid ++ [t2] ++ post)%list.
    rewrite List.app_assoc, fold_left_app.
    fold (spacy_after text suffix (pre ++ [t1])).
    destruct (spacy_after_token text suffix pre t1 H1) as [before [Hv Hsent]].
    rewrite fold_left_app, (spacy_fold_spaces suffix mid) by exact Hmid.
    rewrite fold_left_app. cbn [fold_left].
    destruct (spacy_fold_grows suffix post
                (spacy_step suffix (spacy_after text suffix (pre ++ [t1])) t2))
      as [more ->].
    unfold spacy_is_token in H2. apply andb_prop in H2.
    destruct H2 as [H2 H2']. apply negb_true_iff in H2, H2'.
    rewrite spacy_step_token by exact H2.
    rewrite H2', Hsent, Hv. cbn [sp_vertical].
    exists before, (more ++ close_par). now rewrite !app_assoc.
Qed.

Lemma glue_placement_witness :
  (exists before after,
     udp_vertical Sample2.two_sentences Sample.suffix
     = before
       ++ udp_token_line Sample.suffix (Sample.record "." "." "PUNCT" "_")
       ++ ""
       ++ udp_token_line Sample.suffix
            (Sample.record "Two" "two" "NUM" "SpaceAfter=No")
       ++ after)
  /\ (exists before after,
        spacy_vertical Sample5.comma_doc "a,b" Sample.suffix
        = before
          ++ spacy_line Sample.suffix (Sample5.word "a" "a" "NOUN" 0)
          ++ ""
          ++ glue
          ++ spacy_line Sample.suffix (Sample5.punct "," 0) ++ after).
Proof.
  split.
  - apply (proj1 glue_placement Sample2.two_sentences Sample.suffix
             ["# sent_id = 1";
              Sample.record "One" "one" "NUM" "SpaceAfter=No"]
             (Sample.record "." "." "PUNCT" "_")
             [""; "# sent_id = 2"]
             (Sample.record "Two" "two" "NUM" "SpaceAfter=No")
             [Sample.record "." "." "PUNCT" "_"; ""; ""]).
    + reflexivity.
    + reflexivity.
    + reflexivity.
    + repeat constructor.
  - apply (proj2 glue_placement Sample5.comma_doc "a,b" Sample.suffix
             [] (Sample5.word "a" "a" "NOUN" 0) []
             (Sample5.punct "," 0) [Sample5.word "b" "b" "NOUN" 0]).
    + reflexivity.
    + reflexivity.
    + reflexivity.
    + constructor.
Defined.

(** C4, as stated, fails in [run_spacy]: in "a,b" nothing separates the
    comma from the word after it, yet the line of the comma is directly
    followed by the line of the word; the only glue line stands before
    the comma, a punctuation mark. *)
Lemma glue_missing_before_word :
  spacy_vertical Sample5.comma_doc "a,b" Sample.suffix
  = unlines Sample5.comma_lines
  /\ sp_text (spacy_after "a,b" Sample.suffix
                [Sample5.word "a" "a" "NOUN" 0; Sample5.punct "," 0]) = "b"
  /\ match_space "b" = false
  /\ adjacent ("," ++ tab ++ "," ++ tab ++ "PUNCT" ++ Sample.suffix)
              ("b" ++ tab ++ "b" ++ tab ++ "NOUN" ++ Sample.suffix)
              Sample5.comma_lines = true
  /\ List.length (filter (String.eqb GLUE) Sample5.comma_lines) = 1.
Proof. vm_compute. repeat split. Qed.

(* ================================================================== *)
(** * The lines written by [run_spacy] *)
(* ================================================================== *)

Lemma spacy_step_chunk (suffix : string) (st : spacy_state) (t : Token) :
  sp_vertical (spacy_step suffix st t)
  = sp_vertical st ++ unlines (spacy_chunk suffix st t).
Proof.
  unfold spacy_chunk. destruct (tok_is_space t) eqn:E.
  - rewrite spacy_step_space by exact E. cbn. now rewrite app_nil_r.
  - rewrite spacy_step_token by exact E. cbn [sp_vertical].
    rewrite !unlines_app, !app_assoc. f_equal. f_equal; [|f_equal].
    + now destruct (negb _).
    + now destruct (negb (match_space (sp_text st)) && is_punct t).
    + destruct (String.eqb (tok_text t) PAR_SEP); [reflexivity|].
      unfold spacy_line, token_line. cbn [unlines fold_right].
      now rewrite !app_assoc, ?app_nil_r.
Qed.

Lemma spacy_fold_chunks (suffix : string) (ts : list Token) :
  forall st,
  sp_vertical (fold_left (spacy_step suffix) ts st)
  = sp_vertical st ++ unlines (concat (spacy_chunks suffix st ts)).
Proof.
  induction ts as [|t ts IH]; intros st.
  - cbn. now rewrite app_nil_r.
  - cbn [fold_left spacy_chunks concat].
    now rewrite IH, spacy_step_chunk, unlines_app, app_assoc.
Qed.

Lemma spacy_vertical_unlines (doc : Doc) (text suffix : string) :
  spacy_vertical doc text suffix
  = unlines (spacy_vertical_lines doc text suffix).
Proof.
  unfold spacy_vertical, spacy_vertical_lines.
  rewrite spacy_fold_chunks, !unlines_app. cbn [sp_vertical].
  now rewrite app_assoc.
Qed.

Lemma forbidden_token (x t rest : string) :
  forbidden x (t ++ tab ++ rest) = false.
Proof.
  unfold forbidden. destruct (has_tab_not_tag t rest) as [H1 H2].
  now rewrite H1, H2, !andb_false_r.
Qed.

Lemma spacy_chunk_ok (suffix : string) (st : spacy_state) (t : Token) :
  chunk_ok (spacy_chunk suffix st t) = true.
Proof.
  unfold spacy_chunk. destruct (tok_is_space t); [reflexivity|].
  destruct (negb _); destruct (negb (match_space (sp_text st)) && is_punct t);
    destruct (String.eqb (tok_text t) PAR_SEP); try reflexivity;
    unfold chunk_ok; cbn [List.app well_nested];
    rewrite ?forbidden_token;
    try (destruct (has_tab_not_tag (tok_text t)
                     ((if negb (is_punct t) then lemma_ t else tok_text t)
                      ++ tab ++ pos_ t ++ suffix)) as [H1 H2];
         rewrite ?H1, ?H2);
    reflexivity.
Qed.

Lemma spacy_chunks_ok (suffix : string) (ts : list Token) :
  forall st,
  Forall (fun c => chunk_ok c = true) (spacy_chunks suffix st ts).
Proof.
  induction ts as [|t ts IH]; intros st; constructor;
    [apply spacy_chunk_ok | apply IH].
Qed.

Lemma spacy_vertical_lines_nested (doc : Doc) (text suffix : string) :
  well_nested (spacy_vertical_lines doc text suffix) = true.
Proof.
  unfold spacy_vertical_lines. rewrite List.app_assoc.
  apply well_nested_app; [|reflexivity].
  apply well_nested_chunks; [reflexivity | apply spacy_chunks_ok].
Qed.

Lemma spacy_chunk_lines (P : string -> Prop) (suffix : string)
  (st : spacy_state) (t : Token) :
  P S_CLOSE -> P S_OPEN -> P P_CLOSE -> P P_OPEN -> P GLUE ->
  (tok_is_space t = false -> String.eqb (tok_text t) PAR_SEP = false ->
   P (tok_text t ++ tab
      ++ (if negb (is_punct t) then lemma_ t else tok_text t)
      ++ tab ++ pos_ t ++ suffix)) ->
  Forall P (spacy_chunk suffix st t).
Proof.
  intros H1 H2 H3 H4 H5 H6. unfold spacy_chunk.
  destruct (tok_is_space t); [constructor|].
  repeat (apply Forall_app; split).
  - match goal with |- Forall P (if ?b then _ else _) => destruct b end;
      repeat constructor; assumption.
  - destruct (negb (match_space (sp_text st)) && is_punct t);
      repeat constructor; assumption.
  - destruct (String.eqb (tok_text t) PAR_SEP);
      repeat constructor; auto.
Qed.

Lemma spacy_chunks_lines (P : string -> Prop) (suffix : string)
  (ts : list Token) :
  P S_CLOSE -> P S_OPEN -> P P_CLOSE -> P P_OPEN -> P GLUE ->
  Forall (fun t =>
            tok_is_space t = false ->
            String.eqb (tok_text t) PAR_SEP = false ->
            P (tok_text t ++ tab
               ++ (if negb (is_punct t) then lemma_ t else tok_text t)
               ++ tab ++ pos_ t ++ suffix)) ts ->
  forall st, Forall P (concat (spacy_chunks suffix st ts)).
Proof.
  intros H1 H2 H3 H4 H5 H. induction H as [|t ts Ht _ IH]; intros st.
  - constructor.
  - cbn [spacy_chunks concat]. apply Forall_app. split.
    + now apply spacy_chunk_lines.
    + apply IH.
Qed.

Lemma spacy_vertical_lines_all (P : string -> Prop) (doc : Doc)
  (text suffix : string) :
  P S_CLOSE -> P S_OPEN -> P P_CLOSE -> P P_OPEN -> P GLUE ->
  Forall (fun t =>
            tok_is_space t = false ->
            String.eqb (tok_text t) PAR_SEP = false ->
            P (tok_text t ++ tab
               ++ (if negb (is_punct t) then lemma_ t else tok_text t)
               ++ tab ++ pos_ t ++ suffix)) (doc_tokens doc) ->
  Forall P (spacy_vertical_lines doc text suffix).
Proof.
  intros H1 H2 H3 H4 H5 H. unfold spacy_vertical_lines.
  repeat (apply Forall_app; split).
  - repeat constructor; assumption.
  - now apply spacy_chunks_lines.
  - repeat constructor; assumption.
Qed.

Lemma spacy_vertical_lines_ok (doc : Doc) (text url : string) :
  plain url -> Forall token_plain (doc_tokens doc) ->
  Forall line_ok (spacy_vertical_lines doc text (tab ++ url)).
Proof.
  intros Hu Ht.
  apply spacy_vertical_lines_all;
    try (apply tag_line_ok;
         first [ now left | now (right; left) | now (right; right; left)
               | now (right; right; right; left)
               | now (right; right; right; right) ]).
  eapply Forall_impl; [|exact Ht].
  intros t Hp Hs _. destruct (Hp Hs) as [H1 [_ [H2 H3]]].
  apply token_line_ok; auto. now destruct (negb (is_punct t)).
Qed.

(** Line 147 on what [run_spacy] returns. *)
Lemma spacy_no_empty (doc : Doc) (text url : string) :
  plain url -> Forall token_plain (doc_tokens doc) ->
  contains empty_s (postprocess (spacy_vertical doc text (tab ++ url)))
  = false
  /\ contains empty_p (postprocess (spacy_vertical doc text (tab ++ url)))
     = false.
Proof.
  intros Hu Ht. rewrite spacy_vertical_unlines.
  apply postprocess_no_empty.
  - now apply spacy_vertical_lines_ok.
  - apply spacy_vertical_lines_nested.
Qed.

(** C6.  Whatever tokens the back end returns (a sentinel first or last,
    sentinels in a row, nothing at all), the post-processed chapter body
    holds no [<s>] line directly followed by a [</s>] line and no [<p>]
    line directly followed by a [</p>] line.  This holds for the tagging
    service and for the in-process pipeline; the landing-page reference
    that closes every token line holds no line feed and no [>], and the
    attributes of the tokens of the pipeline hold no line feed (those of
    the service cannot: they are cut out of one line at tabs). *)
Theorem no_empty_elements :
  (forall result url,
     plain url ->
     contains empty_s (postprocess (udp_vertical result (tab ++ url)))
     = false
     /\ contains empty_p (postprocess (udp_vertical result (tab ++ url)))
        = false)
  /\ (forall doc text url,
        plain url -> Forall token_plain (doc_tokens doc) ->
        contains empty_s
          (postprocess (spacy_vertical doc text (tab ++ url))) = false
        /\ contains empty_p
             (postprocess (spacy_vertical doc text (tab ++ url))) = false).
Proof. split; [exact udp_no_empty | exact spacy_no_empty]. Qed.

Lemma sample_tokens_plain :
  Forall token_plain (doc_tokens Sample5.hello_doc).
Proof.
  repeat (apply Forall_cons; [intros _; repeat split; reflexivity|]).
  apply Forall_nil.
Qed.

Lemma no_empty_elements_witness :
  plain Sample.html_url
  /\ Forall token_plain (doc_tokens Sample5.hello_doc)
  /\ contains empty_s
       (postprocess (udp_vertical Sample.hello_payload
                       (tab ++ Sample.html_url))) = false
  /\ contains empty_p
       (postprocess (spacy_vertical Sample5.hello_doc Sample.hello_text
                       (tab ++ Sample.html_url))) = false.
Proof.
  assert (H : plain Sample.html_url) by (split; vm_compute; reflexivity).
  split; [exact H|]. split; [exact sample_tokens_plain|]. split.
  - exact (proj1 (proj1 no_empty_elements Sample.hello_payload
                    Sample.html_url H)).
  - exact (proj2 (proj2 no_empty_elements Sample5.hello_doc
                    Sample.hello_text Sample.html_url H
                    sample_tokens_plain)).
Defined.

(* ================================================================== *)
(** * The walk to the enclosing paragraph *)
(* ================================================================== *)

(** [get_paragraph] returns the first element of the parent chain that is
    a TEI paragraph or the TEI body, and [None] exactly when the chain
    holds neither. *)
Theorem get_paragraph_first_block (chain : list node) :
  match get_paragraph chain with
  | Some n =>
      is_block n = true
      /\ exists before after,
           chain = (before ++ n :: after)%list
           /\ Forall (fun m => is_block m = false) before
  | None => Forall (fun m => is_block m = false) chain
  end.
Proof.
  induction chain as [|n up IH]; [constructor|].
  cbn [get_paragraph]. unfold is_block in *.
  destruct (String.eqb (node_tag n) TEI_P) eqn:Ep; cbn [negb andb orb].
  - split; [now rewrite Ep|]. exists [], up. now split.
  - destruct (String.eqb (node_tag n) TEI_BODY) eqn:Eb; cbn [negb].
    + split; [now rewrite Ep, Eb|]. exists [], up. now split.
    + destruct (get_paragraph up) as [m|].
      * destruct IH as [Hm [before [after [-> Hb]]]].
        split; [exact Hm|]. exists (n :: before), after.
        split; [reflexivity|]. constructor; [now rewrite Ep, Eb | exact Hb].
      * constructor; [now rewrite Ep, Eb | exact IH].
Qed.

(* ================================================================== *)
(** * The corpus file as a whole *)
(* ================================================================== *)







(* ================================================================== *)
(** * The text sent to the back end is one line *)
(* ================================================================== *)

Lemma prefix_nil (s : string) : prefix "" s = true.
Proof. now destruct s. Qed.

(** Replacing one character by a space removes that character and brings
    in no other. *)
Lemma replace_char_count (c d : ascii) (s : string) :
  d <> " "%char ->
  count d (replace (String c "") " " s)
  = if Ascii.eqb c d then 0 else count d s.
Proof.
  intros Hd. induction s as [|x s IH].
  - cbn. now destruct (Ascii.eqb c d).
  - destruct (Ascii.eqb c x) eqn:E.
    + apply Ascii.eqb_eq in E. subst x.
      change (String c s) with (String c "" ++ s).
      rewrite replace_match by discriminate.
      change (" " ++ replace (String c "") " " s)
        with (String " " (replace (String c "") " " s)).
      cbn [count]. rewrite IH.
      assert (H : Ascii.eqb " " d = false)
        by (apply Ascii.eqb_neq; congruence).
      rewrite H. cbn [append count].
      now destruct (Ascii.eqb c d).
    + rewrite replace_nomatch
        by (rewrite prefix_cons, E; reflexivity).
      cbn [count]. rewrite IH.
      destruct (Ascii.eqb c d) eqn:E2; [|reflexivity].
      apply Ascii.eqb_eq in E2. subst d. rewrite Ascii.eqb_sym, E.
      reflexivity.
Qed.

Lemma lstrip_count (c : ascii) (s : string) :
  count c (lstrip s) <= count c s.
Proof.
  induction s as [|x s IH]; [reflexivity|].
  cbn [lstrip]. destruct (is_space x); [cbn [count]; lia | reflexivity].
Qed.

Lemma rstrip_count (c : ascii) (s : string) :
  count c (rstrip s) <= count c s.
Proof.
  induction s as [|x s IH]; [reflexivity|].
  cbn [rstrip]. destruct (rstrip s) as [|y r].
  - destruct (is_space x); cbn [count] in *; lia.
  - cbn [count] in *. lia.
Qed.

Lemma strip_free (c : ascii) (s : string) : free c s -> free c (strip s).
Proof.
  unfold free, strip. intros H.
  pose proof (rstrip_count c (lstrip s)). pose proof (lstrip_count c s). lia.
Qed.

Lemma normalize_free (element : string) :
  free LF (normalize element) /\ free CR (normalize element).
Proof.
  unfold normalize. split; apply strip_free; unfold free, nl, cr.
  - rewrite replace_char_count by discriminate.
    change (Ascii.eqb CR LF) with false. cbv iota.
    rewrite replace_char_count by discriminate.
    now rewrite Ascii.eqb_refl.
  - rewrite replace_char_count by discriminate.
    now rewrite Ascii.eqb_refl.
Qed.

Lemma segment_fold_free (c : ascii) (elements : list smart_string) :
  free c separator ->
  (forall e, free c (normalize e)) -> free c " " ->
  forall last text,
  free c text -> free c (snd (fold_left segment_step elements (last, text))).
Proof.
  intros Hsep Hn Hsp. induction elements as [|e es IH]; intros last text Ht;
    [exact Ht|].
  cbn [fold_left]. unfold segment_step at 2.
  destruct (String.eqb (normalize (value e)) ""); [now apply IH|].
  destruct (negb _); apply IH; unfold free in *;
    rewrite !count_app, ?Ht, ?Hsep, ?(Hn (value e)), ?Hsp; reflexivity.
Qed.

(** Whatever the selected text nodes hold, the text handed to the back
    end has no line feed and no carriage return: the document is sent as
    one line. *)
Theorem backend_text_one_line (elements : list smart_string) :
  free LF (strip (segment elements)) /\ free CR (strip (segment elements)).
Proof.
  split; apply strip_free; unfold segment;
    apply segment_fold_free; try reflexivity;
    intros e; apply normalize_free.
Qed.

(* ================================================================== *)
(** * Which back end an attempt calls *)
(* ================================================================== *)

(** Only the exact value ["udppipe"] of [cfg["backend"]] selects the
    tagging service; with any other value the attempt never posts to it,
    and with that value it never loads a spaCy model. *)
Theorem backend_dispatch (env : environment) (tei_url : string)
  (corpora : corpus) (cfg : config) (b : string) (w : world) :
  backend cfg = Some b ->
  (b <> "udppipe" ->
   posts (snd (process_tei env tei_url corpora cfg w)) = posts w)
  /\ (b = "udppipe" ->
      loads (snd (process_tei env tei_url corpora cfg w)) = loads w).
Proof.
  intros Hb. split; intros Hcase.
  - apply String.eqb_neq in Hcase.
    unfold posts, process_tei, run_udp, run_spacy, model_of, requests_get,
      requests_post, add_stats, bind, item, or_raise, ret, raise, log,
      write, perf_counter, next_exchange, set_time, get_time.
    rewrite Hb, Hcase.
    cbn -[replace postprocess chapter_open chapter_close udp_vertical
          spacy_vertical strip segment clean_tei count PrimFloat.add PrimFloat.sub filter].
    repeat (run_step;
            cbn -[replace postprocess chapter_open chapter_close
                  udp_vertical spacy_vertical strip segment clean_tei count
                  PrimFloat.add PrimFloat.sub filter]);
      rewrite ?filter_app; cbn [filter is_post];
      rewrite ?List.app_nil_r; reflexivity.
  - subst b.
    unfold loads, process_tei, run_udp, run_spacy, model_of, requests_get,
      requests_post, add_stats, bind, item, or_raise, ret, raise, log,
      write, perf_counter, next_exchange, set_time, get_time.
    rewrite Hb.
    cbn -[replace postprocess chapter_open chapter_close udp_vertical
          spacy_vertical strip segment clean_tei count PrimFloat.add PrimFloat.sub filter].
    repeat (run_step;
            cbn -[replace postprocess chapter_open chapter_close
                  udp_vertical spacy_vertical strip segment clean_tei count
                  PrimFloat.add PrimFloat.sub filter]);
      rewrite ?filter_app; cbn [filter is_load];
      rewrite ?List.app_nil_r; reflexivity.
Qed.

Lemma backend_dispatch_witness :
  backend Sample.spacy_cfg = Some "spacy"
  /\ "spacy" <> "udppipe"
  /\ posts (snd (process_tei
                   (Sample5.in_process Sample.hello_elements
                      Sample5.hello_doc)
                   Sample.tei_url Sample.corpora Sample.spacy_cfg start))
     = posts start.
Proof.
  assert (H : "spacy" <> "udppipe") by discriminate.
  split; [reflexivity|]. split; [exact H|].
  exact (proj1 (backend_dispatch _ Sample.tei_url Sample.corpora
                  Sample.spacy_cfg "spacy" start eq_refl) H).
Defined.

(* ================================================================== *)
(** * The sentinel is never written as a token *)
(* ================================================================== *)

Lemma split_line (l r : string) :
  free LF l -> split LF (l ++ nl ++ r) = l :: split LF r.
Proof.
  unfold free. induction l as [|c l IH]; intros H.
  - reflexivity.
  - cbn [count] in H. destruct (Ascii.eqb c LF) eqn:E; [discriminate|].
    change (String c l ++ nl ++ r) with (String c (l ++ nl ++ r)).
    cbn [split]. rewrite E, IH by exact H. reflexivity.
Qed.

Lemma split_unlines (ls : list string) :
  Forall (free LF) ls -> split LF (unlines ls) = (ls ++ [""])%list.
Proof.
  induction 1 as [|l ls Hl _ IH]; [reflexivity|].
  now rewrite unlines_cons, split_line, IH.
Qed.

Lemma token_line_not_sentinel (text rest : string) :
  free TAB text -> String.eqb text PAR_SEP = false ->
  sentinel_line (text ++ tab ++ rest) = false.
Proof.
  intros Hf Hne. unfold sentinel_line, startswith.
  destruct (prefix (PAR_SEP ++ tab) (text ++ tab ++ rest)) eqn:E;
    [|reflexivity].
  exfalso.
  change (PAR_SEP ++ tab) with (PAR_SEP ++ String TAB "") in E.
  change (text ++ tab ++ rest) with (text ++ String TAB rest) in E.
  destruct (prefix_cut TAB PAR_SEP "" text rest eq_refl Hf E) as [-> _].
  rewrite String.eqb_refl in Hne. discriminate.
Qed.

Lemma udp_lines_not_sentinel (suffix line : string) :
  Forall (fun l => sentinel_line l = false) (udp_lines suffix line).
Proof.
  unfold udp_lines.
  destruct (startswith "#" line || String.eqb (strip line) "");
    [constructor|].
  destruct (List.length (split TAB line) <? 10); [constructor|].
  destruct (String.eqb (nth 1 (split TAB line) "") PAR_SEP) eqn:E.
  - repeat constructor.
  - constructor.
    + apply token_line_not_sentinel; [apply fields_free_tab | exact E].
    + destruct (contains "SpaceAfter=No" (nth 9 (split TAB line) ""));
        repeat constructor.
Qed.

Lemma postprocess_lines_of (P : string -> Prop) (ls : list string) :
  Forall line_ok ls -> Forall P ls -> P "" ->
  Forall P (split LF (postprocess (unlines ls))).
Proof.
  intros Hok HP Hnil.
  rewrite postprocess_unlines by exact Hok.
  rewrite split_unlines.
  - apply Forall_app. split; [|now constructor].
    unfold postprocess_lines. now do 2 apply Forall_drop_pair.
  - unfold postprocess_lines. do 2 apply Forall_drop_pair.
    eapply Forall_impl; [|exact Hok]. now intros l [Hl _].
Qed.

(** No line of a post-processed body begins with the sentinel followed by
    a tab: a token whose text is the sentinel is never written as a token
    line, in neither back end, and the tagging service's record of it is
    written as the paragraph break.  The landing-page reference holds no
    line feed and no [>]; the attributes of the tokens of the pipeline
    hold no line feed and their text no tab. *)
Theorem sentinel_never_a_token_line :
  (forall result url,
     plain url ->
     Forall (fun l => sentinel_line l = false)
       (split LF (postprocess (udp_vertical result (tab ++ url)))))
  /\ (forall doc text url,
        plain url -> Forall token_plain (doc_tokens doc) ->
        Forall (fun l => sentinel_line l = false)
          (split LF (postprocess (spacy_vertical doc text (tab ++ url)))))
  /\ (forall suffix line,
        udp_is_sentinel line = true -> udp_emit suffix line = par_break).
Proof.
  split; [|split].
  - intros result url Hu. rewrite udp_vertical_unlines.
    apply postprocess_lines_of; [now apply udp_vertical_lines_ok | |
                                 reflexivity].
    unfold udp_vertical_lines. repeat (apply Forall_app; split).
    + repeat constructor.
    + apply Forall_flat_map, Forall_forall. intros line _.
      apply udp_lines_not_sentinel.
    + repeat constructor.
  - intros doc text url Hu Ht. rewrite spacy_vertical_unlines.
    apply postprocess_lines_of; [now apply spacy_vertical_lines_ok | |
                                 reflexivity].
    apply spacy_vertical_lines_all; try reflexivity.
    eapply Forall_impl; [|exact Ht].
    intros t Hp Hs Hne. destruct (Hp Hs) as [_ [Htab _]].
    now apply token_line_not_sentinel.
  - exact udp_emit_sentinel.
Qed.

Lemma sentinel_never_a_token_line_witness :
  plain Sample.html_url
  /\ Forall token_plain (doc_tokens Sample5.hello_doc)
  /\ Forall (fun l => sentinel_line l = false)
       (split LF (postprocess (udp_vertical Sample5.quoting_payload
                                 (tab ++ Sample.html_url))))
  /\ Forall (fun l => sentinel_line l = false)
       (split LF (postprocess (spacy_vertical Sample5.hello_doc
                                 Sample.hello_text
                                 (tab ++ Sample.html_url))))
  /\ udp_is_sentinel (Sample.record PAR_SEP PAR_SEP "PROPN" "_") = true
  /\ udp_emit Sample.suffix (Sample.record PAR_SEP PAR_SEP "PROPN" "_")
     = par_break.
Proof.
  assert (H : plain Sample.html_url) by (split; vm_compute; reflexivity).
  assert (Hs : udp_is_sentinel (Sample.record PAR_SEP PAR_SEP "PROPN" "_")
               = true) by (vm_compute; reflexivity).
  split; [exact H|]. split; [exact sample_tokens_plain|].
  split; [exact (proj1 sentinel_never_a_token_line
                   Sample5.quoting_payload Sample.html_url H)|].
  split; [exact (proj1 (proj2 sentinel_never_a_token_line)
                   Sample5.hello_doc Sample.hello_text Sample.html_url H
                   sample_tokens_plain)|].
  split; [exact Hs|].
  exact (proj2 (proj2 sentinel_never_a_token_line) Sample.suffix _ Hs).
Defined.

(* ================================================================== *)
(** * A selection without text *)
(* ================================================================== *)

Lemma segment_all_empty (elements : list smart_string) :
  Forall (fun e => normalize (value e) = "") elements ->
  segment elements = "".
Proof.
  unfold segment. induction 1 as [|e es He _ IH]; [reflexivity|].
  cbn [fold_left]. unfold segment_step at 2. now rewrite He.
Qed.

Lemma udp_vertical_silent (result suffix : string) :
  Forall (fun l => udp_emit suffix l = "") (split LF result) ->
  udp_vertical result suffix = open_par ++ close_par.
Proof.
  intros H. unfold udp_vertical. now rewrite udp_fold_silent.
Qed.

(** When the selection holds no text (nothing selected, or white space
    only), the tagging service is still called, with the empty text; if
    its answer holds no token, the attempt succeeds and the chapter is
    its opening marker directly followed by its closing marker, while
    the token statistic stays as it was. *)
Theorem empty_selection_empty_chapter (env : environment)
  (tei_url : string) (corpora : corpus) (cfg : config) (w : world)
  (response : string) (tree : etree) (elements : list smart_string)
  (c : backend_cfg) (ms : list (string * string))
  (model url result : string) :
  http_get env (requests w) tei_url = Some response ->
  fromstring env (clean_tei tei_url response) = Some tree ->
  tree (corpus_xpath corpora) = Some elements ->
  Forall (fun e => normalize (value e) = "") elements ->
  backend cfg = Some "udppipe" -> udppipe cfg = Some c ->
  models c = Some ms -> lookup (corpus_lang corpora) ms = Some model ->
  apiUrl c = Some url ->
  http_post env (S (requests w)) url model "" = Some result ->
  Forall (fun l =>
            udp_emit (tab ++ replace ".xml" ".html" tei_url) l = "")
    (split LF result) ->
  let r := process_tei env tei_url corpora cfg w in
  fst r = Return true
  /\ file (snd r)
     = (file w ++ chapter_open corpora (replace ".xml" ".html" tei_url))
       ++ chapter_close
  /\ tokens (time (snd r)) = tokens (time w)
  /\ posts (snd r) = (posts w ++ [Post url model ""])%list.
Proof.
  intros Hget Hparse Hxpath Hempty Hb Hc Hm Hl Hu Hpost Hsilent.
  unfold posts, process_tei, run_udp, run_spacy, model_of, requests_get,
    requests_post, add_stats, bind, item, or_raise, ret, raise, log, write,
    perf_counter, next_exchange, set_time, get_time.
  cbn -[replace postprocess chapter_open chapter_close udp_vertical
        spacy_vertical strip segment clean_tei count PrimFloat.add PrimFloat.sub filter].
  rewrite Hget.
  cbn -[replace postprocess chapter_open chapter_close udp_vertical
        spacy_vertical strip segment clean_tei count PrimFloat.add PrimFloat.sub filter].
  rewrite Hparse.
  cbn -[replace postprocess chapter_open chapter_close udp_vertical
        spacy_vertical strip segment clean_tei count PrimFloat.add PrimFloat.sub filter].
  rewrite Hxpath.
  cbn -[replace postprocess chapter_open chapter_close udp_vertical
        spacy_vertical strip segment clean_tei count PrimFloat.add PrimFloat.sub filter].
  rewrite Hb.
  cbn -[replace postprocess chapter_open chapter_close udp_vertical
        spacy_vertical strip segment clean_tei count PrimFloat.add PrimFloat.sub filter].
  rewrite Hc.
  cbn -[replace postprocess chapter_open chapter_close udp_vertical
        spacy_vertical strip segment clean_tei count PrimFloat.add PrimFloat.sub filter].
  rewrite Hm.
  cbn -[replace postprocess chapter_open chapter_close udp_vertical
        spacy_vertical strip segment clean_tei count PrimFloat.add PrimFloat.sub filter].
  rewrite Hl.
  cbn -[replace postprocess chapter_open chapter_close udp_vertical
        spacy_vertical strip segment clean_tei count PrimFloat.add PrimFloat.sub filter].
  rewrite Hu.
  cbn -[replace postprocess chapter_open chapter_close udp_vertical
        spacy_vertical strip segment clean_tei count PrimFloat.add PrimFloat.sub filter].
  rewrite (segment_all_empty elements Hempty).
  change (strip "") with "".
  rewrite Hpost.
  cbn -[replace postprocess chapter_open chapter_close udp_vertical
        spacy_vertical strip segment clean_tei count PrimFloat.add PrimFloat.sub filter].
  rewrite (udp_vertical_silent result
             (String TAB (replace ".xml" ".html" tei_url)) Hsilent).
  change (postprocess (open_par ++ close_par)) with "".
  rewrite app_nil_r, !filter_app. cbn [count filter is_post].
  rewrite Nat.add_0_r, List.app_nil_r. repeat split.
Qed.

Lemma empty_selection_empty_chapter_witness :
  let r := process_tei Sample6.blank_env Sample.tei_url Sample.corpora
             Sample.udp_cfg start in
  fst r = Return true
  /\ file (snd r)
     = (file start
        ++ chapter_open Sample.corpora
             (replace ".xml" ".html" Sample.tei_url))
       ++ chapter_close
  /\ tokens (time (snd r)) = tokens (time start)
  /\ posts (snd r)
     = (posts start
        ++ [Post "https://udpipe.example.org/process" "english-ewt" ""])%list.
Proof.
  apply (empty_selection_empty_chapter Sample6.blank_env Sample.tei_url
           Sample.corpora Sample.udp_cfg start "<TEI/>"
           (fun _ => Some Sample6.blank_elements) Sample6.blank_elements
           {| models := Some [("en", "english-ewt")];
              apiUrl := Some "https://udpipe.example.org/process" |}
           [("en", "english-ewt")] "english-ewt"
           "https://udpipe.example.org/process" "");
    try reflexivity.
  - repeat constructor.
  - repeat constructor.
Defined.

(* ================================================================== *)
(** * A language without a model *)
(* ================================================================== *)

Section MissingModel.

Variable env : environment.
Variable tei_url : string.
Variable corpora : corpus.
Variable cfg : config.
Variable c : backend_cfg.
Variable ms : list (string * string).

Hypothesis served : available env tei_url (corpus_xpath corpora).
Hypothesis Hbackend : backend cfg = Some "udppipe".
Hypothesis Hudp : udppipe cfg = Some c.
Hypothesis Hmodels : models c = Some ms.
Hypothesis Hmissing : lookup (corpus_lang corpora) ms = None.

Local Abbreviation body := (process_tei env tei_url corpora cfg).
Local Abbreviation opening :=
  (chapter_open corpora (replace ".xml" ".html" tei_url)).

(** The attempt raises [KeyError] after it has written the opening
    marker, and before any call of the service. *)
Lemma missing_model_attempt (w : world) :
  fst (body w) = Raise (KeyError (corpus_lang corpora))
  /\ file (snd (body w)) = file w ++ opening
  /\ posts (snd (body w)) = posts w.
Proof.
  destruct (served (requests w))
    as [response [tree [elements [Hget [Hparse Hxpath]]]]].
  unfold posts, process_tei, run_udp, run_spacy, model_of, requests_get,
    requests_post, add_stats, bind, item, or_raise, ret, raise, log, write,
    perf_counter, next_exchange, set_time, get_time.
  cbn -[replace postprocess chapter_open chapter_close udp_vertical
        spacy_vertical strip segment clean_tei count PrimFloat.add PrimFloat.sub filter].
  rewrite Hget.
  cbn -[replace postprocess chapter_open chapter_close udp_vertical
        spacy_vertical strip segment clean_tei count PrimFloat.add PrimFloat.sub filter].
  rewrite Hparse.
  cbn -[replace postprocess chapter_open chapter_close udp_vertical
        spacy_vertical strip segment clean_tei count PrimFloat.add PrimFloat.sub filter].
  rewrite Hxpath.
  cbn -[replace postprocess chapter_open chapter_close udp_vertical
        spacy_vertical strip segment clean_tei count PrimFloat.add PrimFloat.sub filter].
  rewrite Hbackend.
  cbn -[replace postprocess chapter_open chapter_close udp_vertical
        spacy_vertical strip segment clean_tei count PrimFloat.add PrimFloat.sub filter].
  rewrite Hudp.
  cbn -[replace postprocess chapter_open chapter_close udp_vertical
        spacy_vertical strip segment clean_tei count PrimFloat.add PrimFloat.sub filter].
  rewrite Hmodels.
  cbn -[replace postprocess chapter_open chapter_close udp_vertical
        spacy_vertical strip segment clean_tei count PrimFloat.add PrimFloat.sub filter].
  rewrite Hmissing.
  cbn -[replace postprocess chapter_open chapter_close udp_vertical
        spacy_vertical strip segment clean_tei count PrimFloat.add PrimFloat.sub filter].
  rewrite filter_app. cbn [filter is_post]. rewrite List.app_nil_r.
  repeat split.
Qed.

Lemma missing_model_raises (w : world) : raises body w = true.
Proof.
  unfold raises. now rewrite (proj1 (missing_model_attempt w)).
Qed.

Lemma missing_model_rounds (n : nat) :
  forall w,
  file (after_failures n body w) = file w ++ copies n opening
  /\ posts (after_failures n body w) = posts w.
Proof.
  induction n as [|n IH]; intros w.
  - cbn. now rewrite app_nil_r.
  - cbn [after_failures copies].
    destruct (IH (failed_round body w)) as [Hf Hp]. rewrite Hf, Hp.
    destruct (failed_round_raise body w (missing_model_raises w))
      as [e [_ ->]].
    destruct (missing_model_attempt w) as [_ [Hfile Hposts]].
    unfold posts in *. cbn [file trace].
    rewrite Hfile, filter_app, Hposts. cbn [filter is_post].
    now rewrite List.app_nil_r, app_assoc.
Qed.

End MissingModel.

(** A language for which [cfg["udppipe"]["models"]] has no entry is
    handled like a failure of the network: for a document that is served
    and parses, the loop makes its ten attempts, fetches the document
    ten times, pauses ten times, never calls the tagging service, and
    leaves ten opening markers of the chapter in the file, without body
    and without closing marker. *)
Theorem missing_model_costs_ten_rounds (env : environment)
  (tei_url : string) (corpora : corpus) (cfg : config) (c : backend_cfg)
  (ms : list (string * string)) (w : world) :
  available env tei_url (corpus_xpath corpora) ->
  backend cfg = Some "udppipe" -> udppipe cfg = Some c ->
  models c = Some ms -> lookup (corpus_lang corpora) ms = None ->
  let w' := snd (fetch env tei_url corpora cfg w) in
  fst (fetch env tei_url corpora cfg w) = Return tt
  /\ file w'
     = file w
       ++ copies 10 (chapter_open corpora (replace ".xml" ".html" tei_url))
  /\ gets w' = (gets w ++ repeat (Get tei_url) 10)%list
  /\ sleeps w' = (sleeps w ++ repeat (Sleep 5) 10)%list
  /\ posts w' = posts w.
Proof.
  intros Hs Hb Hu Hm Hl w'.
  assert (Hraise : forall j, j < 10 ->
            raises (process_tei env tei_url corpora cfg)
              (after_failures j (process_tei env tei_url corpora cfg) w)
            = true)
    by (intros j _; now apply (missing_model_raises env tei_url corpora cfg
                                 c ms)).
  assert (Hrun : fetch env tei_url corpora cfg w
                 = (Return tt,
                    after_failures 10
                      (process_tei env tei_url corpora cfg) w)).
  { unfold fetch. change 10 with (10 + 0) at 1.
    now rewrite attempts_failures by exact Hraise. }
  unfold w'. rewrite Hrun. cbn [fst snd].
  destruct (missing_model_rounds env tei_url corpora cfg c ms
              Hs Hb Hu Hm Hl 10 w) as [Hf Hp].
  destruct (after_failures_events env tei_url corpora cfg 10 w Hraise)
    as [Hg [Hsl _]].
  repeat split; assumption.
Qed.

Lemma missing_model_costs_ten_rounds_witness :
  available Sample.hello_env Sample.tei_url (corpus_xpath Sample6.czech)
  /\ lookup (corpus_lang Sample6.czech) [("en", "english-ewt")] = None
  /\ fst (fetch Sample.hello_env Sample.tei_url Sample6.czech Sample.udp_cfg
            start) = Return tt
  /\ posts (snd (fetch Sample.hello_env Sample.tei_url Sample6.czech
                   Sample.udp_cfg start)) = posts start.
Proof.
  assert (Ha : available Sample.hello_env Sample.tei_url
                 (corpus_xpath Sample6.czech)).
  { intros n. exists "<TEI/>", (fun _ => Some Sample.hello_elements),
      Sample.hello_elements. repeat split. }
  pose proof (missing_model_costs_ten_rounds Sample.hello_env Sample.tei_url
                Sample6.czech Sample.udp_cfg
                {| models := Some [("en", "english-ewt")];
                   apiUrl := Some "https://udpipe.example.org/process" |}
                [("en", "english-ewt")] start Ha eq_refl eq_refl eq_refl
                eq_refl) as H.
  cbv zeta in H. destruct H as [H1 [_ [_ [_ H5]]]].
  split; [exact Ha|]. split; [reflexivity|]. split; [exact H1 | exact H5].
Defined.

(* ================================================================== *)
(** * The key of a corpus and the configuration written for it *)
(* ================================================================== *)

Lemma sanitize_chars (key : string) (c : ascii) :
  In c (list_ascii_of_string (sanitize key)) -> is_alnum c = true.
Proof.
  induction key as [|d key IH]; cbn [sanitize]; [intros []|].
  destruct (is_alnum d) eqn:Hd; [|exact IH].
  cbn [list_ascii_of_string In]. intros [<-|H]; [exact Hd | now apply IH].
Qed.

Lemma alnum_fixed (s : string) :
  (forall c, In c (list_ascii_of_string s) -> is_alnum c = true) ->
  sanitize s = s.
Proof.
  induction s as [|d s IH]; intros H; [reflexivity|].
  cbn [sanitize]. rewrite (H d) by now left.
  f_equal. apply IH. intros c Hc. apply H. now right.
Qed.

Lemma alnum_free (s : string) (x : ascii) :
  is_alnum x = false ->
  (forall c, In c (list_ascii_of_string s) -> is_alnum c = true) ->
  free x s.
Proof.
  unfold free. intros Hx. induction s as [|d s IH]; intros H; [reflexivity|].
  cbn [count]. rewrite IH by (intros c Hc; apply H; now right).
  destruct (Ascii.eqb d x) eqn:E; [|reflexivity].
  apply Ascii.eqb_eq in E. subst d.
  rewrite (H x) in Hx by now left. discriminate.
Qed.

(** The id that [main] gives a corpus holds letters and digits of ASCII
    only, whatever the key was: cleaning it again changes nothing, a key
    that is already clean is kept as it is, and the id holds no slash, no
    dot and no double quote. *)
Theorem corpus_id_alphanumeric (key : string) :
  (forall c, In c (list_ascii_of_string (sanitize key)) -> is_alnum c = true)
  /\ sanitize (sanitize key) = sanitize key
  /\ (sanitize key = key <->
      forall c, In c (list_ascii_of_string key) -> is_alnum c = true)
  /\ free "/" (sanitize key) /\ free "." (sanitize key)
  /\ free "034" (sanitize key)
  /\ String.length (sanitize key) <= String.length key.
Proof.
  split; [exact (sanitize_chars key)|].
  split; [apply alnum_fixed, sanitize_chars|].
  split.
  { split; [intros <-; exact (sanitize_chars key) | apply alnum_fixed]. }
  split; [apply alnum_free; [reflexivity | exact (sanitize_chars key)]|].
  split; [apply alnum_free; [reflexivity | exact (sanitize_chars key)]|].
  split; [apply alnum_free; [reflexivity | exact (sanitize_chars key)]|].
  induction key as [|d key IH]; [reflexivity|].
  cbn [sanitize]. destruct (is_alnum d); cbn [String.length]; lia.
Qed.

Lemma split_no_sep (c : ascii) (s : string) :
  free c s -> split c s = [s].
Proof.
  unfold free. induction s as [|d s IH]; intros H; [reflexivity|].
  cbn [count] in H. cbn [split].
  destruct (Ascii.eqb d c); [discriminate|].
  now rewrite IH by exact H.
Qed.

Lemma split_not_nil (c : ascii) (s : string) : split c s <> [].
Proof.
  destruct s as [|d s]; cbn [split]; [discriminate|].
  destruct (Ascii.eqb d c); [discriminate|].
  destruct (split c s); discriminate.
Qed.

Lemma last_cons_cons {A} (x : A) (l : list A) (d : A) :
  l <> [] -> last (x :: l) d = last l d.
Proof. destruct l; [congruence | reflexivity]. Qed.

Lemma basename_after_slash (a b : string) :
  basename (a ++ String "/" b) = basename b.
Proof.
  unfold basename. induction a as [|d a IH].
  - cbn [append split]. rewrite Ascii.eqb_refl.
    apply last_cons_cons, split_not_nil.
  - cbn [append split]. destruct (Ascii.eqb d "/").
    + rewrite last_cons_cons by apply split_not_nil. exact IH.
    + destruct (split "/" (a ++ String "/" b)) as [|p ps] eqn:E.
      * now apply split_not_nil in E.
      * rewrite <- IH. destruct ps as [|q qs].
        -- exfalso. clear IH.
           revert p E. induction a as [|e a IHa]; intros p E.
           ++ cbn [append split] in E. rewrite Ascii.eqb_refl in E.
              injection E as _ E. now apply split_not_nil in E.
           ++ cbn [append split] in E. destruct (Ascii.eqb e "/").
              ** injection E as _ E. now apply split_not_nil in E.
              ** destruct (split "/" (a ++ String "/" b)) as [|p' ps'] eqn:E'.
                 --- now apply split_not_nil in E'.
                 --- injection E as _ E. subst ps'. now apply (IHa p').
        -- reflexivity.
Qed.

Lemma basename_plain (b : string) : free "/" b -> basename b = b.
Proof. intros H. unfold basename. now rewrite split_no_sep. Qed.

Lemma ends_with_sep_split (a : string) :
  ends_with_sep a = true -> exists a', a = a' ++ "/".
Proof.
  induction a as [|d a IH]; [discriminate|].
  cbn [ends_with_sep]. destruct a as [|e a].
  - intros H. apply Ascii.eqb_eq in H. subst d. now exists "".
  - intros H. destruct (IH H) as [a' Ha']. exists (String d a').
    cbn [append]. now rewrite <- Ha'.
Qed.

Lemma free_app (c : ascii) (a b : string) :
  free c a -> free c b -> free c (a ++ b).
Proof. unfold free. rewrite PyFacts.count_app. lia. Qed.

Lemma startswith_sep_free (b : string) :
  free "/" b -> startswith "/" b = false.
Proof.
  unfold free, startswith. destruct b as [|d b]; [reflexivity|].
  cbn [count prefix]. intros H.
  destruct (Ascii.eqb d "/") eqn:E; [discriminate|].
  destruct (ascii_dec "/" d) as [<-|_]; [|reflexivity].
  now rewrite Ascii.eqb_refl in E.
Qed.

(** the last component of [os.path.join(a, b)] for a name without slash *)
Lemma basename_join (a b : string) :
  free "/" b -> basename (path_join a b) = b.
Proof.
  intros H. unfold path_join. rewrite (startswith_sep_free b H).
  destruct (String.eqb a "") eqn:Ea.
  - apply String.eqb_eq in Ea. subst a. now apply basename_plain.
  - cbn [orb]. destruct (ends_with_sep a) eqn:Es.
    + destruct (ends_with_sep_split a Es) as [a' ->].
      rewrite PyFacts.app_assoc. cbn [append].
      rewrite basename_after_slash. now apply basename_plain.
    + cbn [append]. rewrite basename_after_slash. now apply basename_plain.
Qed.

Lemma path_join_app (a b c : string) :
  free "/" b -> b <> "" \/ free "/" c ->
  path_join a b ++ c = path_join a (b ++ c).
Proof.
  intros Hb Hc. unfold path_join.
  rewrite (startswith_sep_free b Hb).
  assert (Hs : startswith "/" (b ++ c) = false).
  { destruct b as [|d b].
    - destruct Hc as [Hc|Hc]; [congruence|].
      now apply startswith_sep_free.
    - revert Hb. unfold free, startswith. cbn [append count prefix].
      destruct (ascii_dec "/" d) as [<-|_]; [|reflexivity].
      rewrite Ascii.eqb_refl. discriminate. }
  rewrite Hs.
  destruct (String.eqb a "" || ends_with_sep a);
    now rewrite ?PyFacts.app_assoc.
Qed.

Ltac run_config :=
  unfold create_config, bind, item, write, ret, raise;
  cbn [entry corpus_id corpus_lang corpus_landingPage corpus_title
       corpus_vertical register bp_data bp_vertical fst snd file].

(** The configuration of a corpus that [main] has registered, written at
    the path that [main] gives it.  When that file opens and the site
    configuration holds every key that [create_config] reads, the
    function returns and the file is made of the seven lines and the
    constant part; the PATH and the VERTICAL line are built from the
    cleaned key, and the VERTICAL line names the file [<key>.vrt] in the
    directory of [basePath.vertical], whatever [outputDir] is. *)
Theorem config_of_registered_corpus (fs : filesystem) (cfg : site)
  (key title xpath landingpage lang pid : string)
  (teis : list (string * string)) (m d v l cc : string)
  (lm : list (string * string)) (w : world) :
  can_open fs (config_path cfg key) = true ->
  maintainer cfg = Some m ->
  basePath cfg = Some {| bp_data := Some d; bp_vertical := Some v |} ->
  langMap cfg = Some lm -> lookup lang lm = Some l ->
  corporaConfig cfg = Some cc ->
  let corpora := register cfg key title xpath landingpage lang pid teis in
  fst (create_config fs corpora (config_path cfg key) cfg w) = Return tt
  /\ file (snd (create_config fs corpora (config_path cfg key) cfg w))
     = file w ++ config_line "MAINTAINER" m
       ++ config_line "INFO" title
       ++ config_line "NAME" (sanitize key)
       ++ config_line "INFOHREF" landingpage
       ++ config_line "PATH" (path_join d (sanitize key))
       ++ config_line "LANGUAGE" l
       ++ config_line "VERTICAL" (path_join v (sanitize key ++ ".vrt"))
       ++ cc.
Proof.
  intros Ho Hm Hb Hl Hlang Hc corpora. unfold corpora.
  assert (Hfree : free "/" (sanitize key))
    by (apply alnum_free; [reflexivity | exact (sanitize_chars key)]).
  assert (Hbase : basename (path_join (outputDir cfg) (sanitize key) ++ ".vrt")
                  = sanitize key ++ ".vrt").
  { rewrite path_join_app by (try exact Hfree; now right).
    apply basename_join, free_app; [exact Hfree | reflexivity]. }
  unfold create_config, register.
  cbn [entry corpus_id corpus_lang corpus_landingPage corpus_title
       corpus_vertical].
  rewrite Ho, Hbase, Hm, Hb, Hl, Hc.
  unfold bind, item, write, ret. cbn [fst snd file bp_data bp_vertical].
  rewrite Hlang. cbn [fst snd file].
  split; [reflexivity|]. now rewrite !PyFacts.app_assoc.
Qed.

Lemma config_of_registered_corpus_witness :
  can_open Sample7.disk (config_path Sample7.cfg "schnitzler-briefe") = true
  /\ fst (create_config Sample7.disk Sample7.schnitzler
            (config_path Sample7.cfg "schnitzler-briefe") Sample7.cfg start)
     = Return tt
  /\ file (snd (create_config Sample7.disk Sample7.schnitzler
                  (config_path Sample7.cfg "schnitzler-briefe") Sample7.cfg
                  start))
     = file start ++ config_line "MAINTAINER" "admin@example.org"
       ++ config_line "INFO" "Schnitzler Briefe"
       ++ config_line "NAME" (sanitize "schnitzler-briefe")
       ++ config_line "INFOHREF" "https://schnitzler-briefe.example.org"
       ++ config_line "PATH"
            (path_join "/var/lib/manatee/data" (sanitize "schnitzler-briefe"))
       ++ config_line "LANGUAGE" "German"
       ++ config_line "VERTICAL"
            (path_join "/var/lib/manatee/vert/"
               (sanitize "schnitzler-briefe" ++ ".vrt"))
       ++ ("ENCODING " ++ dq ++ "UTF-8" ++ dq ++ nl).
Proof.
  split; [reflexivity|].
  exact (config_of_registered_corpus Sample7.disk Sample7.cfg
           "schnitzler-briefe"
           "Schnitzler Briefe" "//tei:body//text()"
           "https://schnitzler-briefe.example.org" "de" "hdl:1/2"
           [(Sample.tei_url, "L00001")]
           "admin@example.org" "/var/lib/manatee/data"
           "/var/lib/manatee/vert/" "German"
           ("ENCODING " ++ dq ++ "UTF-8" ++ dq ++ nl)
           [("de", "German"); ("en", "English")] start
           eq_refl eq_refl eq_refl eq_refl eq_refl eq_refl).
Defined.

(** A corpus whose language is missing from [langMap].  Once its file
    has opened, [create_config] raises the KeyError of that language
    after it has written five lines: the file it leaves ends with the
    PATH line and has neither a LANGUAGE nor a VERTICAL line, nor the
    constant part. *)
Theorem config_truncated_without_language (fs : filesystem)
  (corpora : registry_entry) (output_path : string)
  (cfg : site) (m d : string) (bp : base_paths)
  (lm : list (string * string)) (w : world) :
  can_open fs output_path = true ->
  maintainer cfg = Some m ->
  basePath cfg = Some bp -> bp_data bp = Some d ->
  langMap cfg = Some lm ->
  lookup (corpus_lang (entry corpora)) lm = None ->
  fst (create_config fs corpora output_path cfg w)
  = Raise (KeyError (corpus_lang (entry corpora)))
  /\ file (snd (create_config fs corpora output_path cfg w))
     = file w ++ config_line "MAINTAINER" m
       ++ config_line "INFO" (corpus_title corpora)
       ++ config_line "NAME" (corpus_id (entry corpora))
       ++ config_line "INFOHREF" (corpus_landingPage (entry corpora))
       ++ config_line "PATH" (path_join d (corpus_id (entry corpora))).
Proof.
  intros Ho Hm Hb Hd Hl Hlang.
  run_config. rewrite Ho, Hm, Hb. cbn [fst snd file]. rewrite Hd, Hl.
  cbn [fst snd file]. rewrite Hlang. cbn [fst snd file].
  split; [reflexivity|]. now rewrite !PyFacts.app_assoc.
Qed.

Lemma config_truncated_without_language_witness :
  can_open Sample7.disk (config_path Sample7.cfg "acta.1") = true
  /\ fst (create_config Sample7.disk Sample7.latin
            (config_path Sample7.cfg "acta.1") Sample7.cfg start)
     = Raise (KeyError (corpus_lang (entry Sample7.latin)))
  /\ file (snd (create_config Sample7.disk Sample7.latin
                  (config_path Sample7.cfg "acta.1") Sample7.cfg start))
     = file start ++ config_line "MAINTAINER" "admin@example.org"
       ++ config_line "INFO" (corpus_title Sample7.latin)
       ++ config_line "NAME" (corpus_id (entry Sample7.latin))
       ++ config_line "INFOHREF"
            (corpus_landingPage (entry Sample7.latin))
       ++ config_line "PATH"
            (path_join "/var/lib/manatee/data"
               (corpus_id (entry Sample7.latin))).
Proof.
  split; [reflexivity|].
  exact (config_truncated_without_language Sample7.disk Sample7.latin
           (config_path Sample7.cfg "acta.1") Sample7.cfg
           "admin@example.org" "/var/lib/manatee/data" Sample7.paths
           [("de", "German"); ("en", "English")] start
           eq_refl eq_refl eq_refl eq_refl eq_refl eq_refl).
Defined.

Lemma ends_with_sep_app (a : string) : ends_with_sep (a ++ "/") = true.
Proof.
  induction a as [|c a IH]; [reflexivity|].
  cbn [append ends_with_sep]. destruct a as [|d a]; [reflexivity|].
  exact IH.
Qed.

(** the path of a corpus whose key cleans to nothing names no file *)
Lemma config_path_unnamed (cfg : site) (key : string) :
  sanitize key = "" ->
  config_path cfg key = "" \/ ends_with_sep (config_path cfg key) = true.
Proof.
  intros H. unfold config_path, path_join. rewrite H.
  cbn [startswith prefix].
  destruct (String.eqb (outputDir cfg) "") eqn:E.
  - apply String.eqb_eq in E. rewrite E. now left.
  - cbn [orb]. destruct (ends_with_sep (outputDir cfg)) eqn:Es.
    + right. now rewrite PyFacts.app_nil_r.
    + right. change (outputDir cfg ++ "/" ++ "") with (outputDir cfg ++ "/").
      apply ends_with_sep_app.
Qed.

(** A source key without any ASCII letter or digit.  The id of the
    corpus is empty and the path that [main] hands to [create_config]
    is the output directory itself, which no file system opens as a
    file: [create_config] raises an OSError before it writes anything,
    whatever the site configuration holds. *)
Theorem unnamed_corpus_has_no_config (fs : filesystem) (cfg : site)
  (key title xpath landingpage lang pid : string)
  (teis : list (string * string)) (w : world) :
  sanitize key = "" ->
  let corpora := register cfg key title xpath landingpage lang pid teis in
  corpus_id (entry corpora) = ""
  /\ (config_path cfg key = ""
      \/ ends_with_sep (config_path cfg key) = true)
  /\ create_config fs corpora (config_path cfg key) cfg w
     = (Raise OSError, w).
Proof.
  intros H corpora. split; [exact H|].
  pose proof (config_path_unnamed cfg key H) as Hp.
  split; [exact Hp|].
  assert (Ho : can_open fs (config_path cfg key) = false).
  { unfold can_open. destruct Hp as [-> | ->]; [reflexivity|].
    now rewrite orb_true_r. }
  unfold create_config, bind, raise. now rewrite Ho.
Qed.

Lemma unnamed_corpus_has_no_config_witness :
  sanitize "-_./" = ""
  /\ create_config Sample7.disk
       (register Sample7.cfg "-_./" "Untitled" "//tei:body//text()"
          "https://example.org/" "de" "hdl:1/4" [])
       (config_path Sample7.cfg "-_./") Sample7.cfg start
     = (Raise OSError, start).
Proof.
  split; [reflexivity|].
  exact (proj2 (proj2 (unnamed_corpus_has_no_config Sample7.disk Sample7.cfg
                         "-_./" "Untitled" "//tei:body//text()"
                         "https://example.org/" "de" "hdl:1/4" [] start
                         eq_refl))).
Defined.

(* ================================================================== *)
(** * The documents of a corpus listed by OAI-PMH *)
(* ================================================================== *)

Lemma dict_set_keys (k v : string) (d : list (string * string)) :
  map fst (dict_set k v d)
  = if existsb (String.eqb k) (map fst d) then map fst d
    else (map fst d ++ [k])%list.
Proof.
  induction d as [|[k' v'] d IH]; [reflexivity|].
  cbn [dict_set map fst existsb].
  destruct (String.eqb k k'); [reflexivity|].
  cbn [map fst orb]. rewrite IH.
  now destruct (existsb (String.eqb k) (map fst d)).
Qed.

Lemma existsb_eqb_In (k : string) (l : list string) :
  existsb (String.eqb k) l = true <-> In k l.
Proof.
  rewrite existsb_exists. split.
  - intros [x [Hx E]]. apply String.eqb_eq in E. now subst x.
  - intros H. exists k. split; [exact H | apply String.eqb_refl].
Qed.

Lemma dict_set_NoDup (k v : string) (d : list (string * string)) :
  NoDup (map fst d) -> NoDup (map fst (dict_set k v d)).
Proof.
  intros H. rewrite dict_set_keys.
  destruct (existsb (String.eqb k) (map fst d)) eqn:E; [exact H|].
  apply NoDup_app; [exact H | repeat constructor; intros [] |].
  intros x Hx [<-|[]].
  apply existsb_eqb_In in Hx. congruence.
Qed.

Lemma dict_set_In (k v x : string) (d : list (string * string)) :
  In x (map fst (dict_set k v d)) <-> x = k \/ In x (map fst d).
Proof.
  rewrite dict_set_keys.
  destruct (existsb (String.eqb k) (map fst d)) eqn:E.
  - apply existsb_eqb_In in E. split; [now right|].
    intros [->|H]; assumption.
  - rewrite in_app_iff. cbn [In]. split.
    + intros [H|[H|[]]]; [now right | now left].
    + intros [->|H]; [right; now left | now left].
Qed.

Lemma dict_set_lookup (k v x : string) (d : list (string * string)) :
  lookup x (dict_set k v d)
  = if String.eqb x k then Some v else lookup x d.
Proof.
  induction d as [|[k' v'] d IH].
  - cbn [dict_set lookup]. reflexivity.
  - cbn [dict_set lookup]. destruct (String.eqb k k') eqn:E.
    + apply String.eqb_eq in E. subst k'. cbn [lookup].
      now destruct (String.eqb x k).
    + cbn [lookup]. rewrite IH.
      destruct (String.eqb x k') eqn:E'; [|reflexivity].
      apply String.eqb_eq in E'. subst k'.
      now rewrite String.eqb_sym, E.
Qed.

Lemma lookup_app (x : string) (a b : list (string * string)) :
  lookup x (a ++ b)
  = match lookup x a with Some v => Some v | None => lookup x b end.
Proof.
  induction a as [|[k v] a IH]; [reflexivity|].
  cbn [app lookup]. now destruct (String.eqb x k).
Qed.

Section DictOf.

Local Abbreviation step :=
  (fun (d : list (string * string)) (kv : string * string) =>
     dict_set (fst kv) (snd kv) d).

Lemma dict_fold_NoDup (ps d : list (string * string)) :
  NoDup (map fst d) -> NoDup (map fst (fold_left step ps d)).
Proof.
  revert d. induction ps as [|[k v] ps IH]; intros d H; [exact H|].
  cbn [fold_left]. apply IH. now apply dict_set_NoDup.
Qed.

Lemma dict_fold_In (x : string) (ps d : list (string * string)) :
  In x (map fst (fold_left step ps d))
  <-> In x (map fst d) \/ In x (map fst ps).
Proof.
  revert d. induction ps as [|[k v] ps IH]; intros d.
  - cbn [fold_left map In]. tauto.
  - cbn [fold_left map fst In]. rewrite IH.
    cbn [fst snd]. rewrite dict_set_In. intuition congruence.
Qed.

Lemma dict_fold_lookup (x : string) (ps d : list (string * string)) :
  lookup x (fold_left step ps d)
  = match lookup x (rev ps) with
    | Some v => Some v
    | None => lookup x d
    end.
Proof.
  revert d. induction ps as [|[k v] ps IH]; intros d; [reflexivity|].
  cbn [fold_left rev]. rewrite IH, lookup_app.
  cbn [fst snd lookup]. rewrite dict_set_lookup.
  destruct (lookup x (rev ps)); [reflexivity|].
  now destruct (String.eqb x k).
Qed.

End DictOf.

Lemma combine_keys (ids titles : list string) :
  map fst (combine ids titles) = firstn (List.length titles) ids.
Proof.
  revert titles. induction ids as [|i ids IH]; intros [|t titles];
    try reflexivity.
  cbn [combine map fst List.length firstn]. now rewrite IH.
Qed.

(** The dict that [get_tei_locations] builds from the identifiers and the
    titles found in the answer of the OAI-PMH endpoint.  No location is
    listed twice; the locations are the identifiers that have a title at
    the same position, so those beyond the number of titles are left out;
    and a location met more than once keeps the title of its last
    record. *)
Theorem tei_locations_dict (ids titles : list string) :
  NoDup (map fst (tei_locations ids titles))
  /\ (forall k, In k (map fst (tei_locations ids titles))
                <-> In k (firstn (List.length titles) ids))
  /\ (forall k, lookup k (tei_locations ids titles)
                = lookup k (rev (combine ids titles)))
  /\ List.length (tei_locations ids titles) <= List.length titles.
Proof.
  unfold tei_locations, dict_of.
  split; [apply dict_fold_NoDup; constructor|].
  split.
  { intros k. rewrite dict_fold_In, combine_keys. cbn [map In]. tauto. }
  split.
  { intros k. rewrite dict_fold_lookup. cbn [lookup].
    now destruct (lookup k (rev (combine ids titles))). }
  set (d := fold_left _ _ _).
  assert (Hn : NoDup (map fst d)) by (apply dict_fold_NoDup; constructor).
  assert (Hi : incl (map fst d) (firstn (List.length titles) ids)).
  { intros k Hk. unfold d in Hk.
    rewrite dict_fold_In, combine_keys in Hk. cbn [map In] in Hk. tauto. }
  pose proof (NoDup_incl_length Hn Hi) as H.
  rewrite length_map, length_firstn in H. lia.
Qed.

(* ================================================================== *)
(** * [run_spacy]: glue marks and the gaps of the text *)
(* ================================================================== *)

Lemma lstrip_gap (g x : string) :
  lstrip g = "" -> lstrip (g ++ x) = lstrip x.
Proof.
  induction g as [|c g IH]; [reflexivity|].
  cbn [lstrip append]. destruct (is_space c); [exact IH | discriminate].
Qed.

Lemma lstrip_word (t x : string) :
  t <> "" -> match_space t = false -> lstrip (t ++ x) = t ++ x.
Proof.
  destruct t as [|c t]; [congruence|].
  cbn [match_space append lstrip]. now intros _ ->.
Qed.

Lemma drop_app (t x : string) : drop (String.length t) (t ++ x) = x.
Proof. induction t as [|c t IH]; [now destruct x | exact IH]. Qed.

Lemma match_space_gap (g t x : string) :
  lstrip g = "" -> t <> "" -> match_space t = false ->
  match_space (g ++ t ++ x) = negb (String.eqb g "").
Proof.
  intros Hg Ht Hm. destruct g as [|c g].
  - destruct t as [|d t]; [congruence | exact Hm].
  - cbn [lstrip] in Hg. cbn [append match_space String.eqb negb].
    destruct (is_space c); [reflexivity | discriminate].
Qed.

Lemma spacy_chunks_aligned (suffix tail : string) (ts : list Token) :
  forall (items : list (string * Token)) (st : spacy_state),
    filter (fun t => negb (tok_is_space t)) ts = map snd items ->
    Forall spelled items ->
    sp_text st = spell items tail ->
    concat (spacy_chunks suffix st ts)
    = aligned_lines suffix (sp_sent st) items
    /\ sp_text (fold_left (spacy_step suffix) ts st) = tail.
Proof.
  induction ts as [|t ts IH]; intros items st Hf Hs Ht.
  - destruct items; [|discriminate]. cbn in *. now split.
  - cbn [filter] in Hf. cbn [spacy_chunks concat fold_left].
    destruct (tok_is_space t) eqn:E; cbn [negb] in Hf.
    + rewrite spacy_step_space by exact E.
      unfold spacy_chunk at 1. rewrite E. cbn [app].
      now apply IH.
    + destruct items as [|[g t'] items]; [discriminate|].
      cbn [map snd] in Hf. injection Hf as <- Hf.
      inversion Hs as [|? ? [Hg [Hne Hm]] Hs']. subst.
      cbn [fst snd] in Hg, Hne, Hm. cbn [spell] in Ht.
      destruct (IH items (spacy_step suffix st t) Hf Hs') as [IH1 IH2].
      { rewrite spacy_step_token by exact E. cbn [sp_text].
        rewrite Ht, lstrip_gap, lstrip_word by assumption.
        apply drop_app. }
      split; [|exact IH2].
      rewrite IH1. cbn [aligned_lines]. f_equal.
      * unfold spacy_chunk, aligned_chunk. rewrite E, Ht.
        rewrite match_space_gap by assumption.
        now rewrite negb_involutive.
      * rewrite spacy_step_token by exact E. reflexivity.
Qed.

(** [run_spacy] on a text that is spelled by the written tokens of the
    document: each token after a gap of white space, which may be empty.
    The words of the text are used up exactly, so that the loop ends with
    the rest of the text that follows the last token; and the vertical
    has a glue line before a token exactly when the token is punctuation
    and its gap is empty.  A word that follows another token without
    white space gets no glue line. *)
Theorem spacy_glue_follows_gaps (doc : Doc) (suffix tail : string)
  (items : list (string * Token)) :
  written_tokens doc = map snd items ->
  Forall spelled items ->
  spacy_vertical doc (spell items tail) suffix
  = unlines ([P_OPEN; S_OPEN] ++ aligned_lines suffix None items
             ++ [S_CLOSE; P_CLOSE])
  /\ sp_text (spacy_after (spell items tail) suffix (doc_tokens doc)) = tail.
Proof.
  intros Hf Hs.
  destruct (spacy_chunks_aligned suffix tail (doc_tokens doc) items
              {| sp_vertical := open_par; sp_sent := None;
                 sp_text := spell items tail |} Hf Hs eq_refl) as [H1 H2].
  split; [|exact H2].
  rewrite spacy_vertical_unlines. unfold spacy_vertical_lines.
  now rewrite H1.
Qed.

Lemma spacy_glue_follows_gaps_witness :
  spacy_vertical Sample5.hello_doc (spell Sample8.hello_items "") Sample.suffix
  = unlines ([P_OPEN; S_OPEN]
             ++ aligned_lines Sample.suffix None Sample8.hello_items
             ++ [S_CLOSE; P_CLOSE])
  /\ sp_text (spacy_after (spell Sample8.hello_items "") Sample.suffix
                (doc_tokens Sample5.hello_doc)) = "".
Proof.
  apply (spacy_glue_follows_gaps Sample5.hello_doc Sample.suffix ""
           Sample8.hello_items).
  - reflexivity.
  - repeat (apply Forall_cons;
            [split; [reflexivity | split; [discriminate | reflexivity]]|]).
    apply Forall_nil.
Defined.

(* ================================================================== *)
(** * The metadata files put together *)
(* ================================================================== *)

Lemma compare_not_gt_trans (a b c : string) :
  String.compare a b <> Gt -> String.compare b c <> Gt ->
  String.compare a c <> Gt.
Proof.
  revert b c. induction a as [|x a IH]; intros [|y b] [|z c];
    cbn [String.compare]; try congruence.
  unfold Ascii.compare.
  destruct (N.compare_spec (N_of_ascii x) (N_of_ascii y)) as [E1|E1|E1];
    destruct (N.compare_spec (N_of_ascii y) (N_of_ascii z)) as [E2|E2|E2];
    try congruence; intros H1 H2.
  - rewrite E1, E2, N.compare_refl. now apply (IH b c).
  - rewrite E1. apply N.compare_lt_iff in E2. rewrite E2. discriminate.
  - rewrite <- E2. apply N.compare_lt_iff in E1. rewrite E1. discriminate.
  - assert (E : (N_of_ascii x < N_of_ascii z)%N) by lia.
    apply N.compare_lt_iff in E. rewrite E. discriminate.
Qed.

Lemma leb_not_gt (a b : string) :
  String.leb a b = true <-> String.compare a b <> Gt.
Proof.
  unfold String.leb. destruct (String.compare a b); split;
    congruence.
Qed.

Lemma leb_trans (a b c : string) :
  String.leb a b = true -> String.leb b c = true -> String.leb a c = true.
Proof. rewrite !leb_not_gt. apply compare_not_gt_trans. Qed.

Lemma leb_refl (a : string) : String.leb a a = true.
Proof. destruct (String.leb_total a a); assumption. Qed.

Local Abbreviation name_le := (fun a b : string => String.leb a b = true).

Lemma insert_sorted_perm (x : string) (l : list string) :
  Permutation (x :: l) (insert_sorted x l).
Proof.
  induction l as [|y l IH]; [apply Permutation_refl|].
  cbn [insert_sorted]. destruct (String.leb x y); [apply Permutation_refl|].
  eapply perm_trans; [apply perm_swap | now apply perm_skip].
Qed.

Lemma sorted_perm (l : list string) : Permutation l (sorted l).
Proof.
  induction l as [|x l IH]; [apply perm_nil|].
  cbn [sorted fold_right]. fold (sorted l).
  eapply perm_trans; [apply perm_skip, IH | apply insert_sorted_perm].
Qed.

Lemma insert_sorted_sorted (x : string) (l : list string) :
  StronglySorted name_le l -> StronglySorted name_le (insert_sorted x l).
Proof.
  induction 1 as [|y l Hs IH Hy]; [repeat constructor|].
  cbn [insert_sorted]. destruct (String.leb x y) eqn:E.
  - constructor; [now constructor|].
    constructor; [exact E|].
    eapply Forall_impl; [|exact Hy]. intros z Hz. now apply (leb_trans x y z).
  - constructor; [exact IH|].
    apply (Permutation_Forall (insert_sorted_perm x l)).
    constructor; [|exact Hy].
    destruct (String.leb_total x y) as [H|H]; [congruence | exact H].
Qed.

Lemma sorted_sorted (l : list string) : StronglySorted name_le (sorted l).
Proof.
  induction l as [|x l IH]; [constructor|].
  cbn [sorted fold_right]. now apply insert_sorted_sorted.
Qed.

Lemma sorted_unique (l1 l2 : list string) :
  StronglySorted name_le l1 -> StronglySorted name_le l2 -> Permutation l1 l2 ->
  l1 = l2.
Proof.
  intros H1. revert l2. induction H1 as [|x l1 Hs IH Hx]; intros l2 H2 Hp.
  - now apply Permutation_nil in Hp.
  - destruct H2 as [|y l2 Hs2 Hy].
    + apply Permutation_sym, Permutation_nil in Hp. discriminate.
    + assert (Hxy : String.leb x y = true).
      { assert (Hin : In y (x :: l1))
          by (apply (Permutation_in y (Permutation_sym Hp)); now left).
        destruct Hin as [->|Hin]; [apply leb_refl|].
        now apply (proj1 (Forall_forall _ _) Hx). }
      assert (Hyx : String.leb y x = true).
      { assert (Hin : In x (y :: l2))
          by (apply (Permutation_in x Hp); now left).
        destruct Hin as [->|Hin]; [apply leb_refl|].
        now apply (proj1 (Forall_forall _ _) Hy). }
      pose proof (String.leb_antisym x y Hxy Hyx) as ->.
      f_equal. apply IH; [exact Hs2|].
      now apply Permutation_cons_inv in Hp.
Qed.

(** The text put together by [update_corpora_yaml.py] does not depend on
    the order in which the directory lists the files: two listings of
    the same names give the same text. *)
Theorem combined_text_order (read : string -> string)
  (files files' : list string) :
  Permutation files files' ->
  combined_text read files = combined_text read files'.
Proof.
  intros Hp. unfold combined_text. f_equal.
  apply sorted_unique; try apply sorted_sorted.
  eapply perm_trans; [apply Permutation_sym, sorted_perm|].
  eapply perm_trans; [exact Hp | apply sorted_perm].
Qed.

Lemma combined_text_order_witness :
  combined_text (fun x => x ++ nl) ["./data/b.yml"; "./data/a.yml"]
  = combined_text (fun x => x ++ nl) ["./data/a.yml"; "./data/b.yml"].
Proof.
  apply (combined_text_order (fun x => x ++ nl)
           ["./data/b.yml"; "./data/a.yml"] ["./data/a.yml"; "./data/b.yml"]).
  apply perm_swap.
Defined.

(* ================================================================== *)
(** * What one attempt leaves behind *)
(* ================================================================== *)

(** The two ways out of [process_tei].  An attempt that returns returns
    [True], has appended a whole chapter to the vertical and has added to
    the statistics the line feeds of the chapter body, the float
    difference of the first two readings of the clock and the float
    difference of the third and the fourth, each by one float addition
    as in lines 154-156; the total is left as it was.  An attempt that
    raises has appended nothing or the opening marker alone, never a
    closing marker, and leaves the statistics as they were. *)
Theorem attempt_outcomes (env : environment) (tei_url : string)
  (corpora : corpus) (cfg : config) (w : world) :
  let html_url := replace ".xml" ".html" tei_url in
  let r := process_tei env tei_url corpora cfg w in
  match fst r with
  | Return b =>
      b = true
      /\ exists processed,
           file (snd r)
           = ((file w ++ chapter_open corpora html_url)
              ++ postprocess processed) ++ chapter_close
           /\ tokens (time (snd r))
              = tokens (time w) + count LF (postprocess processed)
           /\ download (time (snd r))
              = (download (time w)
                 + (clock env (S (ticks w)) - clock env (ticks w)))%float
           /\ nlp (time (snd r))
              = (nlp (time w)
                 + (clock env (S (S (S (ticks w))))
                    - clock env (S (S (ticks w)))))%float
           /\ total (time (snd r)) = total (time w)
  | Raise _ =>
      (file (snd r) = file w
       \/ file (snd r) = file w ++ chapter_open corpora html_url)
      /\ time (snd r) = time w
  end.
Proof.
  intros html_url r.
  pose proof (process_tei_file env tei_url corpora cfg w) as Hf.
  pose proof (process_tei_stats env tei_url corpora cfg w) as Hs.
  cbv zeta in Hf, Hs. fold html_url in Hf, Hs. fold r in Hf, Hs.
  destruct (fst r).
  - destruct Hf as [Hb _]. split; assumption.
  - split; assumption.
Qed.

(* ================================================================== *)
(** * The cost of a corpus *)
(* ================================================================== *)




